(** * Fourier-based option pricing benchmarks of DX Analytics

    A shallow embedding of the notebook [08_dx_fourier_pricing.ipynb]: the
    market environments it builds, the maturity/strike grid, the three
    benchmark loops (the two geometric Brownian motion cells and the
    function [valuation_benchmarking]) and the tables the notebook
    recorded when it was run.

    The Monte Carlo valuation objects, the Black-Scholes-Merton valuation
    object and the Fourier pricing functions of the [dx] package are called
    by the notebook but defined elsewhere; the loops are stated over
    arbitrary such suppliers.  Numbers are numpy [float64] scalars in the
    notebook; here they are exact rationals kept in lowest terms, with one
    extra value for a result that is not finite.

    The definitions come first: calendar, numbers, printing, market
    environments, the recorded tables, the pricer as the specification
    describes it, and the notebook as a program over a world of shared
    mutable objects.  The facts follow: the loops, the benchmark table,
    what a run writes to and where it leaves the shared objects (also
    when it fails), the cells of the notebook one after the other, the
    reference prices, parity, and the recorded tables. *)

From Stdlib Require Import ZArith QArith Qround Qabs String Ascii List Lia.
From Stdlib Require Import Qreals Reals Lra.
From stdpp Require Import base option list gmap strings pretty.

(* ===================================================================== *)
(** * Calendar dates *)
(* ===================================================================== *)

(** Day arithmetic as Python's [datetime] does it (proleptic Gregorian
    ordinals); every date of the notebook is at midnight, so a date is a
    year, a month and a day. *)
Module Calendar.
Local Open Scope Z_scope.

Record date := Date { year : Z; month : Z; day : Z }.

#[global] Instance date_eq_dec : EqDecision date.
Proof. solve_decision. Defined.

Definition is_leap (y : Z) : bool :=
  (y mod 4 =? 0) && (negb (y mod 100 =? 0) || (y mod 400 =? 0)).

Definition days_in_month (y m : Z) : Z :=
  if (m =? 2) && is_leap y then 29
  else match m with
       | 1 => 31 | 2 => 28 | 3 => 31 | 4 => 30 | 5 => 31 | 6 => 30
       | 7 => 31 | 8 => 31 | 9 => 30 | 10 => 31 | 11 => 30 | 12 => 31
       | _ => -1
       end.

Definition days_before_year (y : Z) : Z :=
  let p := y - 1 in p * 365 + p / 4 - p / 100 + p / 400.

Definition days_before_month (y m : Z) : Z :=
  match m with
  | 1 => 0 | 2 => 31 | 3 => 59 | 4 => 90 | 5 => 120 | 6 => 151
  | 7 => 181 | 8 => 212 | 9 => 243 | 10 => 273 | 11 => 304 | 12 => 334
  | _ => -1
  end + (if (2 <? m) && is_leap y then 1 else 0).

(** [date.toordinal()] *)
Definition toordinal (d : date) : Z :=
  days_before_year (year d) + days_before_month (year d) (month d) + day d.

(** [(b - a).days] *)
Definition days_between (a b : date) : Z := toordinal b - toordinal a.

(** Last day of the month of [d]; this is what the month-end offset of
    pandas rolls a date forward to. *)
Definition month_end (y m : Z) : date := Date y m (days_in_month y m).

Definition rollforward (d : date) : date := month_end (year d) (month d).

(** The month-end [n] months after the month of [d]. *)
Definition add_month_ends (n : Z) (d : date) : date :=
  let idx := year d * 12 + (month d - 1) + n in
  month_end (idx / 12) (idx mod 12 + 1).

(** [pd.date_range(start=start, freq='<n>m', periods=periods)]: the
    month-end frequency of pandas.  The first date is [start] rolled
    forward to the end of its month, each further date is the month-end
    [n] months after the one before. *)
Fixpoint date_range_from (cur : date) (n : Z) (periods : nat) : list date :=
  match periods with
  | O => []
  | S p => cur :: date_range_from (add_month_ends n cur) n p
  end.

Definition date_range (start : date) (n : Z) (periods : nat) : list date :=
  date_range_from (rollforward start) n periods.
End Calendar.
Export Calendar.

(* ===================================================================== *)
(** * Numbers *)
(* ===================================================================== *)

(** The numbers of the notebook are numpy scalars (the strikes come from
    [np.linspace]).  A [float64] is a rational in lowest terms, or the
    one value that stands for the non-finite results ([inf], [nan]) numpy
    returns where an operation has no finite result. *)
Inductive float64 :=
  | Finite (q : Q)
  | NonFinite.

Definition of_Q (q : Q) : float64 := Finite (Qred q).
Definition of_Z (z : Z) : float64 := Finite (inject_Z z).

Definition fadd (x y : float64) : float64 :=
  match x, y with
  | Finite a, Finite b => of_Q (a + b)
  | _, _ => NonFinite
  end.

Definition fsub (x y : float64) : float64 :=
  match x, y with
  | Finite a, Finite b => of_Q (a - b)
  | _, _ => NonFinite
  end.

Definition fmul (x y : float64) : float64 :=
  match x, y with
  | Finite a, Finite b => of_Q (a * b)
  | _, _ => NonFinite
  end.

(** numpy division: a zero divisor gives [inf] or [nan], not an
    exception. *)
Definition fdiv (x y : float64) : float64 :=
  match x, y with
  | Finite a, Finite b =>
      if Qeq_bool b 0 then NonFinite else of_Q (a / b)
  | _, _ => NonFinite
  end.

(** [np.linspace(start, stop, num)]: [num] evenly spaced samples, both
    end points included. *)
Definition linspace (start stop : float64) (num : nat) : list float64 :=
  let step := fdiv (fsub stop start) (of_Z (Z.of_nat (num - 1))) in
  match num with
  | 1%nat => [start]
  | _ => map (fun i => fadd start (fmul (of_Z (Z.of_nat i)) step)) (seq 0 num)
  end.

(* ===================================================================== *)
(** * Printing: the [%] conversions the notebook uses *)
(* ===================================================================== *)

Module Printf.
Local Open Scope Z_scope.

(** Round to the nearest integer, ties to even. *)
Definition round_half_even (q : Q) : Z :=
  let f := Qfloor q in
  match (q - inject_Z f ?= 1 # 2)%Q with
  | Lt => f
  | Gt => f + 1
  | Eq => if Z.even f then f else f + 1
  end.

Fixpoint replicate_ascii (n : nat) (c : ascii) : string :=
  match n with
  | O => EmptyString
  | S k => String c (replicate_ascii k c)
  end.

(** Right-justify [s] in a field of [w] characters. *)
Definition pad_left (c : ascii) (w : nat) (s : string) : string :=
  (replicate_ascii (w - String.length s) c ++ s)%string.

Definition digit (d : Z) : ascii :=
  ascii_of_nat (48 + Z.to_nat (d mod 10)).

(** The [p] lowest decimal digits of [n], most significant first. *)
Fixpoint decimals (p : nat) (n : Z) : string :=
  match p with
  | O => EmptyString
  | S p' => (decimals p' (n / 10) ++ String (digit n) EmptyString)%string
  end.

(** The digits of [|q|] rounded to [p] decimals. *)
Definition fixed_digits (p : nat) (q : Q) : string :=
  let scale := 10 ^ Z.of_nat p in
  let n := round_half_even (Qabs q * inject_Z scale)%Q in
  let ip := pretty (n / scale) in
  match p with
  | O => ip
  | _ => (ip ++ "." ++ decimals p n)%string
  end.

(** ['%<w>.<p>f' % x] *)
Definition format_f (w p : nat) (x : float64) : string :=
  match x with
  | Finite q =>
      let sign := match (q ?= 0)%Q with Lt => "-" | _ => "" end%string in
      pad_left " " w (sign ++ fixed_digits p q)
  | NonFinite => pad_left " " w "nan"
  end.

(** ['%<w>s' % s] *)
Definition format_s (w : nat) (s : string) : string := pad_left " " w s.

(** A conversion of the format string together with the argument it
    is applied to. *)
Inductive cell :=
  | CellF (width precision : nat) (x : float64)
  | CellS (width : nat) (s : string).

Definition convert (c : cell) : string :=
  match c with
  | CellF w p x => format_f w p x
  | CellS w s => format_s w s
  end.

(** One printed line: its cells, each with the literal text that follows
    it in the format string. *)
Definition line := list (cell * string).

Fixpoint render (l : line) : string :=
  match l with
  | [] => EmptyString
  | (c, lit) :: l' => (convert c ++ lit ++ render l')%string
  end.
End Printf.
Export Printf.

(* ===================================================================== *)
(** * Market environments *)
(* ===================================================================== *)

Inductive constant :=
  | CFloat (x : float64)
  | CInt (n : Z)
  | CDate (d : date)
  | CStr (s : string).

(** [dx.constant_short_rate(name, short_rate)] *)
Record constant_short_rate :=
  ConstantShortRate { csr_name : string; short_rate : float64 }.

(** Modelled from the spec: the container class [dx.market_environment]
    is not part of the notebook.  It holds a pricing date and named
    constants and curves keyed by strings; [add_constant] and [add_curve]
    store under a key and replace what was stored there, and
    [add_environment] stores every entry of another environment. *)
Record market_environment := MarketEnvironment {
  name : string;
  pricing_date : date;
  constants : gmap string constant;
  curves : gmap string constant_short_rate
}.

Definition new_environment (n : string) (d : date) : market_environment :=
  MarketEnvironment n d ∅ ∅.

Definition add_constant (key : string) (c : constant)
    (me : market_environment) : market_environment :=
  MarketEnvironment (name me) (pricing_date me)
                    (<[key := c]> (constants me)) (curves me).

Definition add_curve (key : string) (c : constant_short_rate)
    (me : market_environment) : market_environment :=
  MarketEnvironment (name me) (pricing_date me)
                    (constants me) (<[key := c]> (curves me)).

Definition add_environment (env me : market_environment)
  : market_environment :=
  MarketEnvironment (name me) (pricing_date me)
                    (constants env ∪ constants me) (curves env ∪ curves me).

Definition get_constant (key : string) (me : market_environment)
  : option constant := constants me !! key.

(** ** The environments of the notebook *)

Definition r : constant_short_rate := ConstantShortRate "r" (of_Q (1 # 100)).

Definition val_env : market_environment :=
  add_constant "final_date" (CDate (Date 2015 12 31))
    (add_constant "starting_date" (CDate (Date 2015 1 1))
      (add_curve "discount_curve" r
        (add_constant "frequency" (CStr "D")
          (add_constant "paths" (CInt 55000)
            (new_environment "val_env" (Date 2015 1 1)))))).

Definition me : market_environment :=
  add_environment val_env
    (add_constant "vol_vol" (CFloat (of_Q (3 # 10)))
    (add_constant "theta" (CFloat (of_Q (2 # 100)))
    (add_constant "kappa" (CFloat (of_Q 5))
    (add_constant "rho" (CFloat (of_Q (- (5 # 10))))
    (add_constant "delta" (CFloat (of_Q (2 # 10)))
    (add_constant "mu" (CFloat (of_Q (- (6 # 10))))
    (add_constant "lambda" (CFloat (of_Q (4 # 10)))
    (add_constant "currency" (CStr "EUR")
    (add_constant "final_date" (CDate (Date 2015 12 31))
    (add_constant "volatility" (CFloat (of_Q (2 # 10)))
    (add_constant "initial_value" (CFloat (of_Q 100))
      (new_environment "me" (Date 2015 1 1))))))))))))).

(** The environment of the options as the notebook constructs it. *)
Definition me_option_0 : market_environment :=
  add_environment val_env
    (add_environment me
      (add_constant "currency" (CStr "EUR")
        (add_constant "strike" (CFloat (of_Q 100))
          (add_constant "maturity" (CDate (Date 2015 12 31))
            (new_environment "option" (Date 2015 1 1)))))).

(** ** The grid parameters *)

(** [freq = '2m']: every second month-end. *)
Definition freq : Z := 2.
Definition periods : nat := 3.
Definition strikes : nat := 5.
Definition initial_value : Z := 100.
Definition start : float64 := of_Q (8 # 10).
Definition end_ : float64 := of_Q (12 # 10).
Definition start_date : date := Date 2015 3 1.

(** [pd.date_range(start=start_date, freq=freq, periods=periods)] *)
Definition maturity_grid : list date := date_range start_date freq periods.

(** [np.linspace(start, end, strikes) * initial_value] *)
Definition strike_grid : list float64 :=
  map (fun x => fmul x (of_Z initial_value)) (linspace start end_ strikes).

(** The grid in the order the loops visit it: maturity by maturity. *)
Definition grid : list (date * float64) :=
  list_prod maturity_grid strike_grid.

(** [(maturity - anchor).days / 365.] *)
Definition T_at (anchor m : date) : float64 :=
  fdiv (of_Z (days_between anchor m)) (of_Z 365).

(** ** Valuation objects *)

Inductive model :=
  | geometric_brownian_motion
  | jump_diffusion
  | stochastic_volatility
  | stoch_vol_jump_diffusion.

(** The simulation objects [gbm], [jd], [sv] and [svjd]. *)
Record simulation_object :=
  SimulationObject { sim_name : string; sim_model : model;
                     sim_env : market_environment }.

Definition gbm := SimulationObject "gbm" geometric_brownian_motion me.
Definition jd := SimulationObject "jd" jump_diffusion me.
Definition sv := SimulationObject "sv" stochastic_volatility me.
Definition svjd := SimulationObject "svjd" stoch_vol_jump_diffusion me.

(** Modelled from the spec: the class
    [dx.valuation_mcs_european_single] is not part of the notebook.  An
    object keeps its own strike and maturity, read from the environment
    when it is constructed and replaced by [update]. *)
Record valuation_object := ValuationObject {
  vo_name : string;
  underlying : simulation_object;
  payoff_func : string;
  vo_strike : option constant;
  vo_maturity : option constant
}.

Definition valuation_mcs_european_single (n : string)
    (u : simulation_object) (env : market_environment) (payoff : string)
  : valuation_object :=
  ValuationObject n u payoff (get_constant "strike" env)
                  (get_constant "maturity" env).

Definition update_maturity (m : date) (o : valuation_object)
  : valuation_object :=
  ValuationObject (vo_name o) (underlying o) (payoff_func o)
                  (vo_strike o) (Some (CDate m)).

Definition update_strike (k : float64) (o : valuation_object)
  : valuation_object :=
  ValuationObject (vo_name o) (underlying o) (payoff_func o)
                  (Some (CFloat k)) (vo_maturity o).

(** Modelled from the spec: the class [dx.BSM_european_option] is not
    part of the notebook.  The object is built from an environment and has
    the attributes [strike] and [maturity] the notebook assigns to. *)
Record bsm_object := BsmObject {
  bsm_name : string;
  bsm_env : market_environment;
  bsm_strike : option constant;
  bsm_maturity : option constant
}.

Definition BSM_european_option (n : string) (env : market_environment)
  : bsm_object :=
  BsmObject n env (get_constant "strike" env) (get_constant "maturity" env).

Definition set_bsm_maturity (m : date) (b : bsm_object) : bsm_object :=
  BsmObject (bsm_name b) (bsm_env b) (bsm_strike b) (Some (CDate m)).

Definition set_bsm_strike (k : float64) (b : bsm_object) : bsm_object :=
  BsmObject (bsm_name b) (bsm_env b) (Some (CFloat k)) (bsm_maturity b).

(** The eight valuation objects of the notebook, by variable name. *)
Inductive ref :=
  | euro_put_gbm | euro_call_gbm
  | euro_put_jd | euro_call_jd
  | euro_put_sv | euro_call_sv
  | euro_put_svjd | euro_call_svjd.

#[global] Instance ref_eq_dec : EqDecision ref.
Proof. solve_decision. Defined.

Definition put_payoff : string := "np.maximum(strike - maturity_value, 0)".
Definition call_payoff : string := "np.maximum(maturity_value - strike, 0)".

Definition construct (x : ref) : valuation_object :=
  match x with
  | euro_put_gbm =>
      valuation_mcs_european_single "euro_put" gbm me_option_0 put_payoff
  | euro_call_gbm =>
      valuation_mcs_european_single "euro_call" gbm me_option_0 call_payoff
  | euro_put_jd =>
      valuation_mcs_european_single "euro_put" jd me_option_0 put_payoff
  | euro_call_jd =>
      valuation_mcs_european_single "euro_call" jd me_option_0 call_payoff
  | euro_put_sv =>
      valuation_mcs_european_single "euro_put" sv me_option_0 put_payoff
  | euro_call_sv =>
      valuation_mcs_european_single "euro_call" sv me_option_0 call_payoff
  | euro_put_svjd =>
      valuation_mcs_european_single "euro_put" svjd me_option_0 put_payoff
  | euro_call_svjd =>
      valuation_mcs_european_single "euro_call" svjd me_option_0 call_payoff
  end.

(* ===================================================================== *)
(** * The notebook as a program over a mutable world *)
(* ===================================================================== *)

(** What a call can end in: a value, or an exception that propagates. *)
Inductive outcome (E A : Type) :=
  | Returned (a : A)
  | Raised (e : E).
Arguments Returned {E A} a.
Arguments Raised {E A} e.

(** The failures the pricing and simulation calls can end in. *)
Inductive dx_error :=
  | InvalidParameters
  | NumericalInstability
  | IntegrationNotConverged
  | ExternalEngineError.

(** ** Suppliers to run the loops with *)

(** A simulation engine that counts its calls and whose estimate is the
    strike of the object plus the number of calls so far. *)
Definition counting_engine (n : nat) (o : valuation_object)
  : outcome dx_error float64 * nat :=
  match vo_strike o with
  | Some (CFloat k) => (Returned (fadd k (of_Z (Z.of_nat n))), S n)
  | _ => (Raised InvalidParameters, n)
  end.

(** A simulation engine whose estimate does not depend on its state (as
    with a fixed seed): the strike of the object, whatever the number of
    calls so far. *)
Definition seeded_engine (n : nat) (o : valuation_object)
  : outcome dx_error float64 * nat :=
  match vo_strike o with
  | Some (CFloat k) => (Returned k, S n)
  | _ => (Raised InvalidParameters, n)
  end.

(** An update that leaves the state of the engine as it is. *)
Definition engine_kept (n : nat) (o : valuation_object) : nat := n.

(** The same engine, except that the simulation breaks down for the
    strike 100. *)
Definition breaking_engine (n : nat) (o : valuation_object)
  : outcome dx_error float64 * nat :=
  match vo_strike o with
  | Some (CFloat (Finite q)) =>
      if Qeq_bool q 100 then (Raised ExternalEngineError, n)
      else counting_engine n o
  | _ => counting_engine n o
  end.

(** A reference price that is the strike of the environment. *)
Definition strike_price (env : market_environment)
  : outcome dx_error float64 :=
  match get_constant "strike" env with
  | Some (CFloat k) => Returned k
  | _ => Raised InvalidParameters
  end.


Definition bsm_strike_price (b : bsm_object) : outcome dx_error float64 :=
  match bsm_strike b with
  | Some (CFloat k) => Returned k
  | _ => Raised InvalidParameters
  end.

(* ===================================================================== *)
(** * The tables the notebook recorded *)
(* ===================================================================== *)

(** One printed row of a recorded table: T, strike, mcs, fou, dif, rel. *)
Record recorded := mk_recorded {
  rec_T : Q; rec_strike : Q; rec_mcs : Q; rec_fou : Q; rec_dif : Q;
  rec_rel : Q
}.

Local Open Scope Q_scope.

Definition recorded_gbm_put : list recorded :=
  [ mk_recorded 0.244 80.000 0.0327 0.0338 (-0.0011) (-3.22);
    mk_recorded 0.244 90.000 0.6532 0.6524 0.0008 0.12;
    mk_recorded 0.244 100.000 3.7811 3.8130 (-0.0318) (-0.84);
    mk_recorded 0.244 110.000 10.6205 10.6957 (-0.0752) (-0.70);
    mk_recorded 0.244 120.000 19.7026 19.8537 (-0.1512) (-0.76);
    mk_recorded 0.411 80.000 0.1755 0.1748 0.0007 0.42;
    mk_recorded 0.411 90.000 1.3393 1.3241 0.0152 1.15;
    mk_recorded 0.411 100.000 4.8421 4.8985 (-0.0564) (-1.15);
    mk_recorded 0.411 110.000 11.3570 11.4275 (-0.0705) (-0.62);
    mk_recorded 0.411 120.000 19.9190 20.0325 (-0.1135) (-0.57);
    mk_recorded 0.578 80.000 0.3820 0.3917 (-0.0097) (-2.47);
    mk_recorded 0.578 90.000 1.9342 1.9466 (-0.0124) (-0.64);
    mk_recorded 0.578 100.000 5.7446 5.7593 (-0.0147) (-0.25);
    mk_recorded 0.578 110.000 12.0049 12.0934 (-0.0885) (-0.73);
    mk_recorded 0.578 120.000 20.2267 20.3153 (-0.0886) (-0.44) ].

Definition recorded_gbm_call : list recorded :=
  [ mk_recorded 0.244 80.000 20.0731 20.2286 (-0.1556) (-0.77);
    mk_recorded 0.244 90.000 10.7908 10.8716 (-0.0808) (-0.74);
    mk_recorded 0.244 100.000 4.0200 4.0565 (-0.0365) (-0.90);
    mk_recorded 0.244 110.000 0.9631 0.9636 (-0.0005) (-0.05);
    mk_recorded 0.244 120.000 0.1356 0.1460 (-0.0104) (-7.14);
    mk_recorded 0.411 80.000 20.3867 20.5029 (-0.1162) (-0.57);
    mk_recorded 0.411 90.000 11.6556 11.6932 (-0.0376) (-0.32);
    mk_recorded 0.411 100.000 5.3106 5.3086 0.0020 0.04;
    mk_recorded 0.411 110.000 1.8540 1.8787 (-0.0247) (-1.31);
    mk_recorded 0.411 120.000 0.5041 0.5246 (-0.0205) (-3.91);
    mk_recorded 0.578 80.000 20.7445 20.8528 (-0.1083) (-0.52);
    mk_recorded 0.578 90.000 12.3760 12.4654 (-0.0894) (-0.72);
    mk_recorded 0.578 100.000 6.3499 6.3357 0.0142 0.22;
    mk_recorded 0.578 110.000 2.7110 2.7274 (-0.0165) (-0.60);
    mk_recorded 0.578 120.000 1.0002 1.0070 (-0.0068) (-0.67) ].

Definition recorded_M76_put : list recorded :=
  [ mk_recorded 0.244 80.000 2.1771 2.1594 0.0177 0.819;
    mk_recorded 0.244 90.000 3.2142 3.2826 (-0.0685) (-2.086);
    mk_recorded 0.244 100.000 5.8588 5.8842 (-0.0254) (-0.431);
    mk_recorded 0.244 110.000 11.4707 11.6115 (-0.1408) (-1.213);
    mk_recorded 0.244 120.000 19.9428 20.0857 (-0.1429) (-0.712);
    mk_recorded 0.411 80.000 3.4273 3.4505 (-0.0233) (-0.674);
    mk_recorded 0.411 90.000 5.1224 5.2162 (-0.0938) (-1.798);
    mk_recorded 0.411 100.000 8.2061 8.2266 (-0.0205) (-0.249);
    mk_recorded 0.411 110.000 13.3971 13.4430 (-0.0458) (-0.341);
    mk_recorded 0.411 120.000 20.8313 20.9238 (-0.0925) (-0.442);
    mk_recorded 0.578 80.000 4.5777 4.6090 (-0.0313) (-0.679);
    mk_recorded 0.578 90.000 6.8477 6.8782 (-0.0304) (-0.443);
    mk_recorded 0.578 100.000 10.2062 10.2077 (-0.0015) (-0.014);
    mk_recorded 0.578 110.000 15.0388 15.2251 (-0.1862) (-1.223);
    mk_recorded 0.578 120.000 21.8634 22.0886 (-0.2252) (-1.020) ].

Definition recorded_M76_call : list recorded :=
  [ mk_recorded 0.244 80.000 22.1538 22.3543 (-0.2005) (-0.897);
    mk_recorded 0.244 90.000 13.3560 13.5018 (-0.1458) (-1.080);
    mk_recorded 0.244 100.000 6.0947 6.1277 (-0.0330) (-0.539);
    mk_recorded 0.244 110.000 1.8695 1.8794 (-0.0098) (-0.524);
    mk_recorded 0.244 120.000 0.3701 0.3780 (-0.0079) (-2.086);
    mk_recorded 0.411 80.000 23.6404 23.7786 (-0.1383) (-0.582);
    mk_recorded 0.411 90.000 15.4757 15.5853 (-0.1096) (-0.703);
    mk_recorded 0.411 100.000 8.6258 8.6367 (-0.0109) (-0.126);
    mk_recorded 0.411 110.000 3.8863 3.8941 (-0.0078) (-0.200);
    mk_recorded 0.411 120.000 1.4004 1.4160 (-0.0156) (-1.101);
    mk_recorded 0.578 80.000 25.0494 25.0701 (-0.0207) (-0.083);
    mk_recorded 0.578 90.000 17.3956 17.3970 (-0.0014) (-0.008);
    mk_recorded 0.578 100.000 10.7217 10.7841 (-0.0624) (-0.579);
    mk_recorded 0.578 110.000 5.8156 5.8591 (-0.0435) (-0.743);
    mk_recorded 0.578 120.000 2.7383 2.7803 (-0.0420) (-1.511) ].

Definition recorded_H93_put : list recorded :=
  [ mk_recorded 0.244 80.000 0.0504 0.0504 (-0.0000) (-0.011);
    mk_recorded 0.244 90.000 0.5512 0.5741 (-0.0229) (-3.984);
    mk_recorded 0.244 100.000 3.2609 3.3204 (-0.0595) (-1.791);
    mk_recorded 0.244 110.000 10.1399 10.2404 (-0.1005) (-0.981);
    mk_recorded 0.244 120.000 19.5842 19.7354 (-0.1512) (-0.766);
    mk_recorded 0.411 80.000 0.1444 0.1603 (-0.0159) (-9.910);
    mk_recorded 0.411 90.000 0.9420 1.0063 (-0.0643) (-6.386);
    mk_recorded 0.411 100.000 3.9185 4.0234 (-0.1049) (-2.607);
    mk_recorded 0.411 110.000 10.4422 10.5487 (-0.1065) (-1.010);
    mk_recorded 0.411 120.000 19.5004 19.6293 (-0.1288) (-0.656);
    mk_recorded 0.578 80.000 0.2502 0.2838 (-0.0336) (-11.847);
    mk_recorded 0.578 90.000 1.2868 1.3631 (-0.0763) (-5.596);
    mk_recorded 0.578 100.000 4.4023 4.5467 (-0.1444) (-3.176);
    mk_recorded 0.578 110.000 10.6897 10.8389 (-0.1492) (-1.376);
    mk_recorded 0.578 120.000 19.4625 19.5767 (-0.1142) (-0.583) ].

Definition recorded_H93_call : list recorded :=
  [ mk_recorded 0.244 80.000 20.0909 20.2453 (-0.1544) (-0.763);
    mk_recorded 0.244 90.000 10.6943 10.7933 (-0.0989) (-0.917);
    mk_recorded 0.244 100.000 3.5110 3.5639 (-0.0529) (-1.483);
    mk_recorded 0.244 110.000 0.4705 0.5083 (-0.0378) (-7.441);
    mk_recorded 0.244 120.000 0.0274 0.0276 (-0.0002) (-0.549);
    mk_recorded 0.411 80.000 20.3465 20.4884 (-0.1419) (-0.693);
    mk_recorded 0.411 90.000 11.2741 11.3754 (-0.1012) (-0.890);
    mk_recorded 0.411 100.000 4.3208 4.4335 (-0.1127) (-2.543);
    mk_recorded 0.411 110.000 0.9430 0.9998 (-0.0568) (-5.685);
    mk_recorded 0.411 120.000 0.1072 0.1214 (-0.0142) (-11.702);
    mk_recorded 0.578 80.000 20.6329 20.7450 (-0.1121) (-0.540);
    mk_recorded 0.578 90.000 11.7564 11.8818 (-0.1254) (-1.056);
    mk_recorded 0.578 100.000 5.0226 5.1231 (-0.1005) (-1.961);
    mk_recorded 0.578 110.000 1.3453 1.4729 (-0.1276) (-8.665);
    mk_recorded 0.578 120.000 0.2373 0.2684 (-0.0311) (-11.598) ].

Definition recorded_B96_put : list recorded :=
  [ mk_recorded 0.244 80.000 2.1374 2.1638 (-0.0265) (-1.224);
    mk_recorded 0.244 90.000 3.1814 3.2761 (-0.0947) (-2.891);
    mk_recorded 0.244 100.000 5.4111 5.5889 (-0.1778) (-3.182);
    mk_recorded 0.244 110.000 11.0267 11.0733 (-0.0466) (-0.421);
    mk_recorded 0.244 120.000 19.5912 19.8344 (-0.2431) (-1.226);
    mk_recorded 0.411 80.000 3.3949 3.4366 (-0.0417) (-1.213);
    mk_recorded 0.411 90.000 5.0453 5.1339 (-0.0887) (-1.727);
    mk_recorded 0.411 100.000 7.5677 7.7747 (-0.2069) (-2.662);
    mk_recorded 0.411 110.000 12.5075 12.5744 (-0.0669) (-0.532);
    mk_recorded 0.411 120.000 19.8595 20.1827 (-0.3233) (-1.602);
    mk_recorded 0.578 80.000 4.3390 4.5480 (-0.2090) (-4.595);
    mk_recorded 0.578 90.000 6.4859 6.7163 (-0.2304) (-3.431);
    mk_recorded 0.578 100.000 9.2934 9.6585 (-0.3651) (-3.780);
    mk_recorded 0.578 110.000 13.9231 14.1776 (-0.2545) (-1.795);
    mk_recorded 0.578 120.000 20.6726 20.9423 (-0.2697) (-1.288) ].

Definition recorded_B96_call : list recorded :=
  [ mk_recorded 0.244 80.000 22.1335 22.3587 (-0.2252) (-1.007);
    mk_recorded 0.244 90.000 13.3312 13.4953 (-0.1640) (-1.216);
    mk_recorded 0.244 100.000 5.6897 5.8325 (-0.1428) (-2.448);
    mk_recorded 0.244 110.000 1.2988 1.3411 (-0.0423) (-3.156);
    mk_recorded 0.244 120.000 0.1163 0.1266 (-0.0103) (-8.110);
    mk_recorded 0.411 80.000 23.5008 23.7647 (-0.2639) (-1.110);
    mk_recorded 0.411 90.000 15.3156 15.5030 (-0.1875) (-1.209);
    mk_recorded 0.411 100.000 7.9903 8.1848 (-0.1944) (-2.376);
    mk_recorded 0.411 110.000 2.8889 3.0255 (-0.1366) (-4.514);
    mk_recorded 0.411 120.000 0.6102 0.6749 (-0.0647) (-9.583);
    mk_recorded 0.578 80.000 24.7946 25.0091 (-0.2145) (-0.858);
    mk_recorded 0.578 90.000 16.9820 17.2351 (-0.2531) (-1.469);
    mk_recorded 0.578 100.000 9.9994 10.2349 (-0.2355) (-2.300);
    mk_recorded 0.578 110.000 4.5780 4.8117 (-0.2337) (-4.857);
    mk_recorded 0.578 120.000 1.4891 1.6340 (-0.1448) (-8.864) ].

Local Close Scope Q_scope.


(** Whether every row satisfies [p]. *)
Definition all_rows (p : recorded -> bool) (t : list recorded) : bool :=
  forallb p t.

(** The printed difference is the difference of the printed prices, up
    to the rounding of the three numbers to four decimals. *)
Definition dif_consistent (x : recorded) : bool :=
  Qle_bool (Qabs (rec_dif x - (rec_mcs x - rec_fou x))) (15 # 100000).

(** The printed relative difference, with [p] decimals, is the printed
    difference relative to the printed reference price, in percent: up to
    the rounding of the difference and of the price to four decimals and
    of the relative difference to [p]. *)
Definition rel_consistent (p : nat) (x : recorded) : bool :=
  Qle_bool (Qabs (rec_rel x * rec_fou x - 100 * rec_dif x))
           ((51 # 10000) + Qabs (rec_rel x) * (1 # 10000)
            + rec_fou x * (1 # 2) / inject_Z (10 ^ Z.of_nat p)).

(** The number a cell of [p] decimals shows for [x]. *)
Definition shown (p : nat) (x : float64) : option Q :=
  match x with
  | Finite q =>
      let scale := inject_Z (10 ^ Z.of_nat p) in
      let n := inject_Z (round_half_even (Qabs q * scale)) in
      Some (match (q ?= 0)%Q with Lt => - (n / scale) | _ => n / scale end)%Q
  | NonFinite => None
  end.

(** The rows of a table are those of the grid, in its order: the year
    fraction from the pricing date and the strike, as printed. *)
Definition follows_grid (t : list recorded) : bool :=
  (length t =? length grid)%nat &&
  forallb (fun '(mk, x) =>
             match shown 3 (T_at (pricing_date me_option_0) (fst mk)),
                   shown 3 (snd mk) with
             | Some T, Some k =>
                 Qeq_bool (rec_T x) T && Qeq_bool (rec_strike x) k
             | _, _ => false
             end) (combine grid t).

(** Within one maturity the reference price rises (falls) from one row to
    the next, that is from a strike to the next higher one. *)
Fixpoint rising_in_strike (t : list recorded) : bool :=
  match t with
  | a :: (b :: _) as t' =>
      (negb (Qeq_bool (rec_T a) (rec_T b))
       || negb (Qle_bool (rec_fou b) (rec_fou a)))
      && rising_in_strike t'
  | _ => true
  end.

Fixpoint falling_in_strike (t : list recorded) : bool :=
  match t with
  | a :: (b :: _) as t' =>
      (negb (Qeq_bool (rec_T a) (rec_T b))
       || negb (Qle_bool (rec_fou a) (rec_fou b)))
      && falling_in_strike t'
  | _ => true
  end.

(** ** Discount factors *)

(** Rationals below and above e^(-x) for 0 <= x <= 1: from
    1 - y <= e^(-y) <= 1 / (1 + y) at y = x / 2^k by squaring [k] times,
    rounded outwards to 18 decimals after each squaring. *)
Definition round_down (q : Q) : Q :=
  (inject_Z (Qfloor (q * inject_Z (10 ^ 18))) / inject_Z (10 ^ 18))%Q.

Definition round_up (q : Q) : Q :=
  (inject_Z (Qceiling (q * inject_Z (10 ^ 18))) / inject_Z (10 ^ 18))%Q.

Fixpoint exp_neg_lower (k : nat) (x : Q) : Q :=
  match k with
  | O => (1 - x)%Q
  | S k' => let l := exp_neg_lower k' (x / 2)%Q in round_down (l * l)%Q
  end.

Fixpoint exp_neg_upper (k : nat) (x : Q) : Q :=
  match k with
  | O => (/ (1 + x))%Q
  | S k' => let u := exp_neg_upper k' (x / 2)%Q in round_up (u * u)%Q
  end.

(** By how much the recorded reference prices of a put row [p] and of
    the call row [c] of the same grid point miss put-call parity,
    Call - Put - (S0 - K e^(-rT)), with the spot 100, the short rate 0.01
    and T the given number of days over 365. *)
Definition parity_error (days : Z) (p c : recorded) : R :=
  (Q2R (rec_fou c) - Q2R (rec_fou p)
   - (100 - Q2R (rec_strike p) * exp (- (1 / 100 * (IZR days / 365)))))%R.

(** A sufficient test in rational arithmetic that the miss is at most
    [tol]. *)
Definition parity_within (tol : Q) (days : Z) (p c : recorded) : bool :=
  let x := ((1 # 100) * (inject_Z days / 365))%Q in
  let base := (rec_fou c - rec_fou p - 100)%Q in
  Qle_bool 0 x && Qle_bool x 1 && Qle_bool 0 (rec_strike p) &&
  Qle_bool (- tol) (base + rec_strike p * exp_neg_lower 12 x) &&
  Qle_bool (base + rec_strike p * exp_neg_upper 12 x) tol.

(** The put and call rows of two tables, each pair with the days from the
    pricing date to the maturity of its grid point. *)
Definition paired_rows (puts calls : list recorded)
  : list (Z * (recorded * recorded)) :=
  combine
    (map (fun mk => days_between (pricing_date me_option_0) (fst mk)) grid)
    (combine puts calls).

(* ===================================================================== *)
(** * The Fourier pricer *)
(* ===================================================================== *)

Module FourierPricer.
Local Open Scope R_scope.

Inductive option_right := put | call.

Inductive model_parameters :=
  | GeometricBrownianMotion (sigma : R)
  | JumpDiffusion (sigma lambda mu delta : R)
  | StochasticVolatility (v0 theta kappa xi rho : R)
  | StochVolJumpDiffusion (v0 theta kappa xi rho lambda mu delta : R).

(** Spot, strike, short rate and time to maturity in years. *)
Record market_data := MarketData {
  spot : R; strike : R; rate : R; horizon : R
}.

(** The documented domain of the model parameters. *)
Definition in_domain (p : model_parameters) : Prop :=
  match p with
  | GeometricBrownianMotion sigma => 0 < sigma
  | JumpDiffusion sigma lambda mu delta =>
      0 < sigma /\ 0 <= lambda /\ 0 <= delta
  | StochasticVolatility v0 theta kappa xi rho =>
      0 <= v0 /\ 0 < theta /\ 0 < kappa /\ 0 < xi /\ -1 <= rho /\ rho <= 1
  | StochVolJumpDiffusion v0 theta kappa xi rho lambda mu delta =>
      (0 <= v0 /\ 0 < theta /\ 0 < kappa /\ 0 < xi /\ -1 <= rho /\ rho <= 1)
      /\ 0 <= lambda /\ 0 <= delta
  end.

(** Valid inputs: a positive spot and strike, a maturity in the future
    and parameters within their domain. *)
Definition valid (p : model_parameters) (d : market_data) : Prop :=
  0 < spot d /\ 0 < strike d /\ 0 < horizon d /\ in_domain p.

Definition valid_dec (p : model_parameters) (d : market_data)
  : {valid p d} + {~ valid p d}.
Proof.
  unfold valid.
  destruct (Rlt_dec 0 (spot d)); [|right; tauto].
  destruct (Rlt_dec 0 (strike d)); [|right; tauto].
  destruct (Rlt_dec 0 (horizon d)); [|right; tauto].
  assert (Hd : {in_domain p} + {~ in_domain p}).
  { destruct p as [sigma|sigma lambda mu delta|v0 theta kappa xi rho
                   |v0 theta kappa xi rho lambda mu delta]; simpl;
      repeat match goal with
             | |- {?a < ?b} + {_} => apply Rlt_dec
             | |- {?a <= ?b} + {_} => apply Rle_dec
             | |- {?A /\ ?B} + {_} =>
                 let HA := fresh in let HB := fresh in
                 assert (HA : {A} + {~ A});
                 [|assert (HB : {B} + {~ B});
                   [|destruct HA; [destruct HB; [left; tauto|right; tauto]
                                  |right; tauto]]]
             end. }
  destruct Hd; [left; tauto | right; tauto].
Defined.

Section Pricer.
(** The transform integrator: the discounted value of the integral for
    the put of a model, or the error it ends in. *)
Variable integrate_put : model_parameters -> market_data -> outcome dx_error R.

(** Modelled from the spec: the pricing functions [dx.M76_put_value],
    [dx.M76_call_value] and their Heston and Bates counterparts are
    not part of the notebook.  The pricer validates its inputs and fails
    with [InvalidParameters] otherwise, computes the put by the transform
    integrator and obtains the call from the put:
    Call = Put + S0 - K e^(-rT). *)
Definition price (right : option_right) (p : model_parameters)
    (d : market_data) : outcome dx_error R :=
  if valid_dec p d then
    match integrate_put p d with
    | Returned put_price =>
        match right with
        | put => Returned put_price
        | call =>
            Returned (put_price + spot d
                      - strike d * exp (- rate d * horizon d))
        end
    | Raised e => Raised e
    end
  else Raised InvalidParameters.
End Pricer.
End FourierPricer.

(** ** An engine with a call counter *)

(** Any engine, made to count its [present_value] calls; an [update]
    is not a call. *)
Definition counted {E exn : Type}
    (pv : E -> valuation_object -> outcome exn float64 * E)
  : E * nat -> valuation_object -> outcome exn float64 * (E * nat) :=
  fun en o => let '(res, e') := pv en.1 o in (res, (e', S en.2)).

Definition uncounted {E : Type} (upd : E -> valuation_object -> E)
  : E * nat -> valuation_object -> E * nat :=
  fun en o => (upd en.1 o, en.2).

Section Notebook.
(** Exceptions are opaque to the notebook; so is the state of the
    simulation engine (random number generator, cached paths), which
    every [present_value] call may read and change. *)
Variable exn : Type.
Variable engine_state : Type.

(** [valuation_object.present_value()] *)
Variable present_value :
  engine_state -> valuation_object -> outcome exn float64 * engine_state.

(** What [valuation_object.update(...)] may do to the state of the
    simulation engine, besides replacing the strike or the maturity of the
    object. *)
Variable updated : engine_state -> valuation_object -> engine_state.

(** [bsm_option.put_value()] and [bsm_option.call_value()] *)
Variable put_value : bsm_object -> outcome exn float64.
Variable call_value : bsm_object -> outcome exn float64.

(** Modelled from the spec: the Fourier pricing functions
    ([dx.M76_put_value] and the like) are not part of the notebook.  A
    pricing function is a pure function of the market environment it is
    given: it holds no state across calls and returns a price or fails
    with an error. *)
Definition fourier_function : Type :=
  market_environment -> outcome exn float64.

(** The objects the cells share. *)
Record world := World {
  me_option : market_environment;
  objects : ref -> valuation_object;
  bsm_option : bsm_object;
  engine : engine_state;
  stdout : list line
}.

(** A statement: it runs in a world, changes it, and returns or
    raises; the changes made before an exception stay. *)
Definition M (A : Type) : Type := world -> outcome exn A * world.

#[local] Instance M_ret : MRet M := fun A a w => (Returned a, w).
#[local] Instance M_bind : MBind M := fun A B f c w =>
  match c w with
  | (Returned a, w') => f a w'
  | (Raised e, w') => (Raised e, w')
  end.

(** [for x in xs: body] *)
Fixpoint for_each {A : Type} (xs : list A) (body : A -> M unit) : M unit :=
  match xs with
  | [] => mret tt
  | x :: xs' => body x ;; for_each xs' body
  end.

Definition print (l : line) : M unit := fun w =>
  (Returned tt,
   World (me_option w) (objects w) (bsm_option w) (engine w)
         (stdout w ++ [l])).

Definition set_object (x : ref) (o : valuation_object)
    (f : ref -> valuation_object) : ref -> valuation_object :=
  fun y => if decide (y = x) then o else f y.

(** [x.update(maturity=m)] *)
Definition update_maturity_of (x : ref) (m : date) : M unit := fun w =>
  let o := update_maturity m (objects w x) in
  (Returned tt,
   World (me_option w) (set_object x o (objects w)) (bsm_option w)
         (updated (engine w) o) (stdout w)).

(** [x.update(strike=k)] *)
Definition update_strike_of (x : ref) (k : float64) : M unit := fun w =>
  let o := update_strike k (objects w x) in
  (Returned tt,
   World (me_option w) (set_object x o (objects w)) (bsm_option w)
         (updated (engine w) o) (stdout w)).

(** [x.present_value()] *)
Definition present_value_of (x : ref) : M float64 := fun w =>
  let '(res, e') := present_value (engine w) (objects w x) in
  (res, World (me_option w) (objects w) (bsm_option w) e' (stdout w)).

(** [me_option.add_constant(key, c)] *)
Definition me_option_add_constant (key : string) (c : constant) : M unit :=
  fun w =>
    (Returned tt,
     World (add_constant key c (me_option w)) (objects w) (bsm_option w)
           (engine w) (stdout w)).

(** [bsm_option.maturity = m] and [bsm_option.strike = k] *)
Definition bsm_option_set_maturity (m : date) : M unit := fun w =>
  (Returned tt,
   World (me_option w) (objects w) (set_bsm_maturity m (bsm_option w))
         (engine w) (stdout w)).

Definition bsm_option_set_strike (k : float64) : M unit := fun w =>
  (Returned tt,
   World (me_option w) (objects w) (set_bsm_strike k (bsm_option w))
         (engine w) (stdout w)).

(** [f(me_option)] for a Fourier pricing function, and the two methods
    of [bsm_option]. *)
Definition call_fourier (f : fourier_function) : M float64 := fun w =>
  (f (me_option w), w).

Definition bsm_option_put_value : M float64 := fun w =>
  (put_value (bsm_option w), w).

Definition bsm_option_call_value : M float64 := fun w =>
  (call_value (bsm_option w), w).

(** [(maturity - me_option.pricing_date).days / 365.] *)
Definition year_fraction (m : date) : M float64 := fun w =>
  (Returned (T_at (pricing_date (me_option w)) m), w).

(** ** The printed lines *)

Definition header : line :=
  [(CellS 4 "T", "  | "); (CellS 7 "strike", " | "); (CellS 7 "mcs", " | ");
   (CellS 7 "fou", " | "); (CellS 7 "dif", " | "); (CellS 7 "rel", "")].

(** ['%4.3f | %7.3f | %7.4f | %7.4f | %7.4f | %7.<p>f ' %
     (T, strike, mcs, fou, mcs - fou, (mcs - fou) / fou * 100)];
    the two geometric Brownian motion cells have [p = 2], the function
    [valuation_benchmarking] has [p = 3]. *)
Definition row (p : nat) (T strike mcs fou : float64) : line :=
  [(CellF 4 3 T, " | "); (CellF 7 3 strike, " | "); (CellF 7 4 mcs, " | ");
   (CellF 7 4 fou, " | "); (CellF 7 4 (fsub mcs fou), " | ");
   (CellF 7 p (fmul (fdiv (fsub mcs fou) fou) (of_Z 100)), " ")].

(** ** The geometric Brownian motion cells *)

Definition gbm_put_strike (maturity : date) (strike : float64) : M unit :=
  T ← year_fraction maturity;
  update_strike_of euro_put_gbm strike;;
  mcs ← present_value_of euro_put_gbm;
  bsm_option_set_strike strike;;
  ana ← bsm_option_put_value;
  print (row 2 T strike mcs ana).

Definition gbm_put_maturity (maturity : date) : M unit :=
  bsm_option_set_maturity maturity;;
  update_maturity_of euro_put_gbm maturity;;
  for_each strike_grid (gbm_put_strike maturity).

(** The cell "European put". *)
Definition gbm_put_benchmark : M unit :=
  print header;;
  for_each maturity_grid gbm_put_maturity.

Definition gbm_call_strike (maturity : date) (strike : float64) : M unit :=
  T ← year_fraction maturity;
  update_strike_of euro_call_gbm strike;;
  mcs ← present_value_of euro_call_gbm;
  bsm_option_set_strike strike;;
  bsm_option_set_maturity maturity;;
  ana ← bsm_option_call_value;
  print (row 2 T strike mcs ana).

Definition gbm_call_maturity (maturity : date) : M unit :=
  update_maturity_of euro_call_gbm maturity;;
  for_each strike_grid (gbm_call_strike maturity).

(** The cell "European calls". *)
Definition gbm_call_benchmark : M unit :=
  print header;;
  for_each maturity_grid gbm_call_maturity.

(** ** [valuation_benchmarking] *)

Definition benchmark_strike (valuation_object : ref)
    (fourier : fourier_function) (maturity : date) (strike : float64)
  : M unit :=
  T ← year_fraction maturity;
  update_strike_of valuation_object strike;;
  mcs ← present_value_of valuation_object;
  me_option_add_constant "strike" (CFloat strike);;
  fou ← call_fourier fourier;
  print (row 3 T strike mcs fou).

Definition benchmark_maturity (valuation_object : ref)
    (fourier : fourier_function) (maturity : date) : M unit :=
  update_maturity_of valuation_object maturity;;
  me_option_add_constant "maturity" (CDate maturity);;
  for_each strike_grid (benchmark_strike valuation_object fourier maturity).

Definition valuation_benchmarking (valuation_object : ref)
    (fourier : fourier_function) : M unit :=
  print header;;
  for_each maturity_grid (benchmark_maturity valuation_object fourier).

(** ** The cells of the notebook that run something *)

(** The pricing functions of the [dx] package the notebook names. *)
Inductive dx_function :=
  | M76_put_value | M76_call_value
  | H93_put_value | H93_call_value
  | B96_put_value | B96_call_value.

Variable dx : dx_function -> fourier_function.

Inductive cell_code :=
  | PresentValue (x : ref)
  | GbmPutBenchmark
  | GbmCallBenchmark
  | ValuationBenchmarking (x : ref) (f : dx_function).

Definition run_cell (c : cell_code) : M unit :=
  match c with
  | PresentValue x => present_value_of x ;; mret tt
  | GbmPutBenchmark => gbm_put_benchmark
  | GbmCallBenchmark => gbm_call_benchmark
  | ValuationBenchmarking x f => valuation_benchmarking x (dx f)
  end.

(** From "Valuation Benchmarking" on, in the order of the notebook. *)
Definition notebook_cells : list cell_code :=
  [ PresentValue euro_put_gbm; GbmPutBenchmark;
    PresentValue euro_call_gbm; GbmCallBenchmark;
    PresentValue euro_put_jd; ValuationBenchmarking euro_put_jd M76_put_value;
    PresentValue euro_call_jd;
    ValuationBenchmarking euro_call_jd M76_call_value;
    PresentValue euro_put_sv; ValuationBenchmarking euro_put_sv H93_put_value;
    PresentValue euro_call_sv;
    ValuationBenchmarking euro_call_sv H93_call_value;
    PresentValue euro_put_svjd;
    ValuationBenchmarking euro_put_svjd B96_put_value;
    PresentValue euro_call_svjd;
    ValuationBenchmarking euro_call_svjd B96_call_value ].

(** The world once every object is constructed. *)
Definition initial_world (e : engine_state) : world :=
  World me_option_0 construct (BSM_european_option "bsm_opt" me_option_0)
        e [].

(** ** What a benchmark run is expected to do *)

(** An object, an environment and the Black-Scholes-Merton object once
    they are set to a grid point. *)
Definition object_at (o : valuation_object) (mk : date * float64)
  : valuation_object := update_strike mk.2 (update_maturity mk.1 o).

Definition env_at (env : market_environment) (mk : date * float64)
  : market_environment :=
  add_constant "strike" (CFloat mk.2)
    (add_constant "maturity" (CDate mk.1) env).

Definition bsm_at (b : bsm_object) (mk : date * float64) : bsm_object :=
  set_bsm_strike mk.2 (set_bsm_maturity mk.1 b).

(** A benchmark: the valuation object it simulates with, where its
    reference price comes from, the date the year fractions count from
    and the decimals of the last column. *)
Record benchmark := Benchmark {
  priced : valuation_object;
  reference : date * float64 -> outcome exn float64;
  anchor : date;
  rel_decimals : nat
}.

Definition fourier_benchmark (x : ref) (f : fourier_function) (w : world)
  : benchmark :=
  Benchmark (objects w x) (fun mk => f (env_at (me_option w) mk))
            (pricing_date (me_option w)) 3.

Definition bsm_put_benchmark (w : world) : benchmark :=
  Benchmark (objects w euro_put_gbm)
            (fun mk => put_value (bsm_at (bsm_option w) mk))
            (pricing_date (me_option w)) 2.

Definition bsm_call_benchmark (w : world) : benchmark :=
  Benchmark (objects w euro_call_gbm)
            (fun mk => call_value (bsm_at (bsm_option w) mk))
            (pricing_date (me_option w)) 2.

(** The line of a grid point both of whose prices were obtained. *)
Definition priced_at (b : benchmark) (mk : date * float64) (l : line)
  : Prop :=
  exists e e' mcs fou,
    present_value e (object_at (priced b) mk) = (Returned mcs, e') /\
    reference b mk = Returned fou /\
    l = row (rel_decimals b) (T_at (anchor b) mk.1) mk.2 mcs fou.

(** One of the two prices of a grid point was not obtained. *)
Definition fails_at (b : benchmark) (mk : date * float64) (err : exn)
  : Prop :=
  (exists e e', present_value e (object_at (priced b) mk) = (Raised err, e'))
  \/ (exists e e' mcs,
        present_value e (object_at (priced b) mk) = (Returned mcs, e') /\
        reference b mk = Raised err).

(** A run over the grid [g] that printed [rows] and ended in [o]: the
    rows are those of the grid points before the first failure, in
    order; the run returns if there is no failure and raises the error
    of the first failing point otherwise. *)
Definition run_result (b : benchmark) (g : list (date * float64))
    (rows : list line) (o : outcome exn unit) : Prop :=
  exists done rest,
    g = done ++ rest /\
    Forall2 (priced_at b) done rows /\
    match o with
    | Returned _ => rest = []
    | Raised err => exists mk rest', rest = mk :: rest' /\ fails_at b mk err
    end.

(** Environments, objects that differ at most in strike and maturity. *)
Definition same_env (e1 e2 : market_environment) : Prop :=
  pricing_date e1 = pricing_date e2 /\ forall mk, env_at e1 mk = env_at e2 mk.

Definition same_object (o1 o2 : valuation_object) : Prop :=
  forall mk, object_at o1 mk = object_at o2 mk.

Definition same_bsm (b1 b2 : bsm_object) : Prop :=
  forall mk, bsm_at b1 mk = bsm_at b2 mk.

(** What stays true of the world during a run started in [w0] on the
    object [x], and where the run stands after the maturity [m] was set
    and after the strike [k] was priced. *)
Definition during (x : ref) (w0 w : world) : Prop :=
  same_env (me_option w) (me_option w0) /\
  same_object (objects w x) (objects w0 x) /\
  same_bsm (bsm_option w) (bsm_option w0) /\
  forall y, y <> x -> objects w y = objects w0 y.

Definition fourier_stands (x : ref) (m : date) (ok : option float64)
    (w : world) : Prop :=
  vo_maturity (objects w x) = Some (CDate m) /\
  get_constant "maturity" (me_option w) = Some (CDate m) /\
  match ok with
  | Some k => get_constant "strike" (me_option w) = Some (CFloat k)
  | None => True
  end.

Definition gbm_put_stands (m : date) (ok : option float64) (w : world)
  : Prop :=
  vo_maturity (objects w euro_put_gbm) = Some (CDate m) /\
  bsm_maturity (bsm_option w) = Some (CDate m).

Definition gbm_call_stands (m : date) (ok : option float64) (w : world)
  : Prop :=
  vo_maturity (objects w euro_call_gbm) = Some (CDate m).





Definition uses_fourier (c : cell_code) : option dx_function :=
  match c with
  | ValuationBenchmarking _ f => Some f
  | _ => None
  end.

(** Whether [valuation_benchmarking] is called in one of the cells. *)
Definition benchmarking_among (cs : list cell_code) : bool :=
  existsb (fun c => bool_decide (is_Some (uses_fourier c))) cs.

(** The last point of the grid. *)
Definition last_point : date * float64 := (Date 2015 7 31, of_Q 120).

(** The three benchmark programs of the notebook, each with the
    benchmark it carries out when started in a world. *)
Inductive benchmark_run : M unit -> (world -> benchmark) -> Prop :=
  | gbm_put_run : benchmark_run gbm_put_benchmark bsm_put_benchmark
  | gbm_call_run : benchmark_run gbm_call_benchmark bsm_call_benchmark
  | fourier_run x f :
      benchmark_run (valuation_benchmarking x f) (fourier_benchmark x f).

(** A line that compares the two prices [mcs] and [fou] of a grid
    point: year fraction and strike with three decimals, the two prices
    and their difference with four, the difference relative to [fou] in
    percent with [p]. *)
Definition comparison_row (T strike mcs fou : float64) (p : nat) (l : line)
  : Prop :=
  l = [(CellF 4 3 T, " | "); (CellF 7 3 strike, " | ");
       (CellF 7 4 mcs, " | "); (CellF 7 4 fou, " | ");
       (CellF 7 4 (fsub mcs fou), " | ");
       (CellF 7 p (fmul (fdiv (fsub mcs fou) fou) (of_Z 100)), " ")].

(** ** What a run leaves alone *)

(** Between the worlds [w] and [w'] nothing has changed but what a run
    of [valuation_benchmarking] on the object [x] writes to: the strike
    and the maturity of [x], the constants [strike] and [maturity] of
    [me_option], the state of the engine and the output. *)
Definition benchmarking_frame (x : ref) (w w' : world) : Prop :=
  bsm_option w' = bsm_option w /\
  (forall y, y <> x -> objects w' y = objects w y) /\
  vo_name (objects w' x) = vo_name (objects w x) /\
  underlying (objects w' x) = underlying (objects w x) /\
  payoff_func (objects w' x) = payoff_func (objects w x) /\
  name (me_option w') = name (me_option w) /\
  pricing_date (me_option w') = pricing_date (me_option w) /\
  curves (me_option w') = curves (me_option w) /\
  forall key, key <> "strike" -> key <> "maturity" ->
    get_constant key (me_option w') = get_constant key (me_option w).

(** The same for a geometric Brownian motion cell: it writes to the
    strike and the maturity of its object [x] and of [bsm_option]. *)
Definition gbm_frame (x : ref) (w w' : world) : Prop :=
  me_option w' = me_option w /\
  (forall y, y <> x -> objects w' y = objects w y) /\
  vo_name (objects w' x) = vo_name (objects w x) /\
  underlying (objects w' x) = underlying (objects w x) /\
  payoff_func (objects w' x) = payoff_func (objects w x) /\
  bsm_name (bsm_option w') = bsm_name (bsm_option w) /\
  bsm_env (bsm_option w') = bsm_env (bsm_option w).

(** The valuation object a cell updates, if it updates one. *)
Definition target (c : cell_code) : option ref :=
  match c with
  | PresentValue _ => None
  | GbmPutBenchmark => Some euro_put_gbm
  | GbmCallBenchmark => Some euro_call_gbm
  | ValuationBenchmarking x _ => Some x
  end.

(** ** The table of an engine whose estimates do not depend on its state *)

(** The rows of the grid [g] and how the run over it ends, when the
    estimate of an object is [v] of that object: the rows of the points up
    to the first one a price of which is not obtained. *)
Fixpoint expected_rows (v : valuation_object -> outcome exn float64)
    (b : benchmark) (g : list (date * float64))
  : list line * outcome exn unit :=
  match g with
  | [] => ([], Returned tt)
  | mk :: g' =>
      match v (object_at (priced b) mk) with
      | Raised err => ([], Raised err)
      | Returned mcs =>
          match reference b mk with
          | Raised err => ([], Raised err)
          | Returned fou =>
              let '(rows, o) := expected_rows v b g' in
              (row (rel_decimals b) (T_at (anchor b) mk.1) mk.2 mcs fou
                 :: rows, o)
          end
      end
  end.

(** The options of the world [w'] are those of [w]: [me_option] and
    every valuation object differ at most in strike and maturity. *)
Definition same_options (w w' : world) : Prop :=
  same_env (me_option w') (me_option w) /\
  forall y, same_object (objects w' y) (objects w y).

(** ** Counting the calls of the engine *)

(** With a counter [count] of the [present_value] calls an engine state
    has seen: the calls and the lines of a statement that ran from [w]
    and ended as [res] go together, a statement that raised having made
    one call more than it printed lines. *)
Definition calls_match_lines (count : engine_state -> nat) (w : world)
    (res : outcome exn unit * world) : Prop :=
  (count (engine res.2) + length (stdout w))%nat =
  (count (engine w) + length (stdout res.2)
   + match res.1 with Returned _ => 0 | Raised _ => 1 end)%nat.

(** Tactics to run the statements of a loop body. *)
Ltac world_fields := cbn [me_option objects bsm_option engine stdout].

Ltac run_statements :=
  unfold year_fraction, update_strike_of, update_maturity_of,
    present_value_of, me_option_add_constant, call_fourier, print,
    bsm_option_set_maturity, bsm_option_set_strike, bsm_option_put_value,
    bsm_option_call_value, mbind, M_bind;
  cbn [me_option objects bsm_option engine stdout].

(* =================================================================== *)
(** * Facts about the loops *)
(* =================================================================== *)

Lemma bind_run {A B} (c : M A) (f : A -> M B) (w : world) :
  (c ≫= f) w = match c w with
               | (Returned a, w') => f a w'
               | (Raised e, w') => (Raised e, w')
               end.
Proof. reflexivity. Qed.

Lemma for_each_cons {A} (x : A) (xs : list A) (body : A -> M unit) w :
  for_each (x :: xs) body w =
    match body x w with
    | (Returned _, w') => for_each xs body w'
    | (Raised e, w') => (Raised e, w')
    end.
Proof. reflexivity. Qed.

Lemma for_each_nil {A} (body : A -> M unit) w :
  for_each [] body w = (Returned tt, w).
Proof. reflexivity. Qed.

(** Setting a maturity or a strike that is already there changes
    nothing. *)
Lemma update_maturity_id m o :
  vo_maturity o = Some (CDate m) -> update_maturity m o = o.
Proof. destruct o; simpl; intros ->; reflexivity. Qed.

Lemma set_bsm_maturity_id m b :
  bsm_maturity b = Some (CDate m) -> set_bsm_maturity m b = b.
Proof. destruct b; simpl; intros ->; reflexivity. Qed.

Lemma add_constant_id key c env :
  get_constant key env = Some c -> add_constant key c env = env.
Proof.
  destruct env as [n d cs cu]; unfold get_constant, add_constant; simpl.
  intros H. by rewrite insert_id.
Qed.

Lemma get_add_constant key c env :
  get_constant key (add_constant key c env) = Some c.
Proof. unfold get_constant, add_constant; simpl. apply lookup_insert_eq. Qed.

Lemma get_add_constant_ne key key' c env :
  key <> key' ->
  get_constant key' (add_constant key c env) = get_constant key' env.
Proof.
  intros H. unfold get_constant, add_constant; simpl.
  by apply lookup_insert_ne.
Qed.

Lemma env_at_add_maturity env m mk :
  env_at (add_constant "maturity" (CDate m) env) mk = env_at env mk.
Proof.
  unfold env_at, add_constant; simpl. by rewrite insert_insert_eq.
Qed.

Lemma env_at_add_strike env k mk :
  env_at (add_constant "strike" (CFloat k) env) mk = env_at env mk.
Proof.
  unfold env_at, add_constant; simpl.
  rewrite (insert_insert_ne _ "maturity" "strike") by done.
  by rewrite insert_insert_eq.
Qed.

Lemma same_env_refl env : same_env env env.
Proof. split; reflexivity. Qed.

Lemma same_env_add_maturity env env0 m :
  same_env env env0 -> same_env (add_constant "maturity" (CDate m) env) env0.
Proof.
  intros [Hd He]; split; [exact Hd|].
  intros mk. rewrite env_at_add_maturity. apply He.
Qed.

(** In an environment that has the maturity [m], storing the strike [k]
    gives the environment of the grid point. *)
Lemma add_strike_env_at env env0 m k :
  same_env env env0 ->
  get_constant "maturity" env = Some (CDate m) ->
  add_constant "strike" (CFloat k) env = env_at env0 (m, k).
Proof.
  intros [_ He] Hm. rewrite <- He. unfold env_at; simpl.
  by rewrite (add_constant_id "maturity").
Qed.

Lemma env_at_reached env env0 m k :
  same_env env env0 ->
  get_constant "maturity" env = Some (CDate m) ->
  get_constant "strike" env = Some (CFloat k) ->
  env = env_at env0 (m, k).
Proof.
  intros He Hm Hk. rewrite <- (add_strike_env_at env env0 m k He Hm).
  symmetry. by apply add_constant_id.
Qed.

Lemma same_env_env_at env mk : same_env (env_at env mk) env.
Proof.
  split; [reflexivity|]. intros mk'.
  change (env_at env mk) with
    (add_constant "strike" (CFloat mk.2)
       (add_constant "maturity" (CDate mk.1) env)).
  by rewrite env_at_add_strike, env_at_add_maturity.
Qed.

Lemma same_object_object_at o mk : same_object (object_at o mk) o.
Proof. intros mk'. reflexivity. Qed.

Lemma same_bsm_bsm_at b mk : same_bsm (bsm_at b mk) b.
Proof. intros mk'. reflexivity. Qed.

Lemma same_object_refl o : same_object o o.
Proof. intros mk; reflexivity. Qed.

Lemma same_object_update_maturity o o0 m :
  same_object o o0 -> same_object (update_maturity m o) o0.
Proof. intros H mk. rewrite <- H. reflexivity. Qed.

Lemma update_strike_object_at o o0 m k :
  same_object o o0 ->
  vo_maturity o = Some (CDate m) ->
  update_strike k o = object_at o0 (m, k).
Proof.
  intros H Hm. rewrite <- H. unfold object_at; simpl.
  by rewrite update_maturity_id.
Qed.

Lemma same_bsm_refl b : same_bsm b b.
Proof. intros mk; reflexivity. Qed.

Lemma same_bsm_set_maturity b b0 m :
  same_bsm b b0 -> same_bsm (set_bsm_maturity m b) b0.
Proof. intros H mk. rewrite <- H. reflexivity. Qed.

Lemma set_strike_bsm_at b b0 m k :
  same_bsm b b0 ->
  bsm_maturity b = Some (CDate m) ->
  set_bsm_strike k b = bsm_at b0 (m, k).
Proof.
  intros H Hm. rewrite <- H. unfold bsm_at; simpl.
  by rewrite set_bsm_maturity_id.
Qed.

Lemma set_both_bsm_at b b0 m k :
  same_bsm b b0 ->
  set_bsm_maturity m (set_bsm_strike k b) = bsm_at b0 (m, k).
Proof. intros H. rewrite <- H. reflexivity. Qed.

Lemma set_object_same x o f : set_object x o f x = o.
Proof. unfold set_object. by rewrite decide_True. Qed.

Lemma set_object_other x y o f : y <> x -> set_object x o f y = f y.
Proof. intros H. unfold set_object. by rewrite decide_False. Qed.

Lemma during_start x w e out :
  during x w (World (me_option w) (objects w) (bsm_option w) e out).
Proof.
  repeat split; auto using same_object_refl, same_bsm_refl.
Qed.

(** ** Composing run results *)

Lemma run_result_nil b : run_result b [] [] (Returned tt).
Proof. exists [], []. repeat split. constructor. Qed.

Lemma run_result_step b mk l g rows o :
  priced_at b mk l -> run_result b g rows o ->
  run_result b (mk :: g) (l :: rows) o.
Proof.
  intros Hl (done & rest & -> & Hrows & Ho).
  exists (mk :: done), rest. repeat split; [by constructor | exact Ho].
Qed.

Lemma run_result_fail b mk g err :
  fails_at b mk err -> run_result b (mk :: g) [] (Raised err).
Proof.
  intros H. exists [], (mk :: g). repeat split; [constructor|].
  by exists mk, g.
Qed.

Lemma run_result_app b g1 g2 rows1 rows2 o :
  run_result b g1 rows1 (Returned tt) -> run_result b g2 rows2 o ->
  run_result b (g1 ++ g2) (rows1 ++ rows2) o.
Proof.
  intros (d1 & r1 & -> & H1 & ->) (d2 & r2 & -> & H2 & Ho).
  exists (d1 ++ d2), r2. rewrite app_nil_r, app_assoc.
  repeat split; [by apply Forall2_app | exact Ho].
Qed.

Lemma run_result_raised_app b g1 g2 rows err :
  run_result b g1 rows (Raised err) ->
  run_result b (g1 ++ g2) rows (Raised err).
Proof.
  intros (d & rest & -> & H & mk & rest' & -> & Hf).
  exists d, (mk :: rest' ++ g2). rewrite <- app_assoc.
  repeat split; [exact H|]. by exists mk, (rest' ++ g2).
Qed.

(** A run that returned priced the whole grid; one that raised priced
    less. *)
Lemma run_result_returned_length b g rows u :
  run_result b g rows (Returned u) -> length rows = length g.
Proof.
  intros (d & rest & -> & H & ->). rewrite app_nil_r.
  symmetry. by eapply Forall2_length.
Qed.

Lemma run_result_raised_length b g rows err :
  run_result b g rows (Raised err) -> (length rows < length g)%nat.
Proof.
  intros (d & rest & -> & H & mk & rest' & -> & _).
  rewrite length_app, <- (Forall2_length _ _ _ H). simpl. lia.
Qed.


(** ** The two nested loops, for any benchmark *)

Section GridLoop.
Variable b : benchmark.
Variable Inv : world -> Prop.
Variable Stands : date -> option float64 -> world -> Prop.
Variable ks : list float64.
Variable inner : date -> float64 -> M unit.
Variable outer : date -> M unit.

Hypothesis inner_step : forall m k ok w,
  Inv w -> Stands m ok w ->
  match inner m k w with
  | (Returned _, w') =>
      Inv w' /\ Stands m (Some k) w' /\
      exists l, priced_at b (m, k) l /\ stdout w' = stdout w ++ [l]
  | (Raised err, w') => stdout w' = stdout w /\ fails_at b (m, k) err
  end.

Hypothesis outer_step : forall m w,
  Inv w ->
  exists w1, Inv w1 /\ Stands m None w1 /\ stdout w1 = stdout w /\
             outer m w = for_each ks (inner m) w1.

Lemma strikes_loop m : forall ks' ok w o w',
  Inv w -> Stands m ok w ->
  for_each ks' (inner m) w = (o, w') ->
  exists rows,
    stdout w' = stdout w ++ rows /\
    run_result b (map (pair m) ks') rows o /\
    match o with
    | Returned _ => Inv w' /\ Stands m (from_option Some ok (last ks')) w'
    | Raised _ => True
    end.
Proof.
  induction ks' as [|k ks' IH]; intros ok w o w' HI HS Hrun.
  - rewrite for_each_nil in Hrun. injection Hrun as <- <-.
    exists []. rewrite app_nil_r. split; [done|].
    split; [apply run_result_nil | by split].
  - rewrite for_each_cons in Hrun.
    pose proof (inner_step m k ok w HI HS) as Hstep.
    destruct (inner m k w) as [[[]|err] w1].
    + destruct Hstep as (HI1 & HS1 & l & Hl & Hout).
      destruct (IH (Some k) w1 o w' HI1 HS1 Hrun)
        as (rows & Hrows & Hres & Hend).
      exists (l :: rows). split; [|split].
      * rewrite Hrows, Hout, <- app_assoc. reflexivity.
      * simpl. by apply run_result_step.
      * destruct o; [|done]. rewrite last_cons.
        destruct (last ks'); exact Hend.
    + injection Hrun as <- <-. destruct Hstep as (Hout & Hf).
      exists []. rewrite app_nil_r. split; [done|].
      split; [by apply run_result_fail | done].
Qed.

Lemma maturities_loop : forall ms w o w',
  Inv w ->
  for_each ms outer w = (o, w') ->
  exists rows,
    stdout w' = stdout w ++ rows /\
    run_result b (list_prod ms ks) rows o /\
    match o with
    | Returned _ =>
        Inv w' /\ forall m, last ms = Some m -> Stands m (last ks) w'
    | Raised _ => True
    end.
Proof.
  induction ms as [|m ms IH]; intros w o w' HI Hrun.
  - rewrite for_each_nil in Hrun. injection Hrun as <- <-.
    exists []. rewrite app_nil_r. split; [done|].
    split; [apply run_result_nil | by split].
  - rewrite for_each_cons in Hrun.
    destruct (outer_step m w HI) as (w1 & HI1 & HS1 & Hout1 & Hm).
    rewrite Hm in Hrun.
    destruct (for_each ks (inner m) w1) as [[[]|err] w2] eqn:Hin.
    + destruct (strikes_loop m ks None w1 _ _ HI1 HS1 Hin)
        as (rows1 & Hrows1 & Hres1 & HI2 & HS2).
      destruct (IH w2 o w' HI2 Hrun) as (rows2 & Hrows2 & Hres2 & Hend).
      exists (rows1 ++ rows2). split; [|split].
      * rewrite Hrows2, Hrows1, Hout1, <- app_assoc. reflexivity.
      * simpl. by apply run_result_app.
      * destruct o; [|done]. destruct Hend as [HI3 HS3].
        split; [exact HI3|]. intros m'. rewrite last_cons.
        destruct (last ms) as [m''|] eqn:Hlast.
        -- apply HS3.
        -- intros [= <-]. apply last_None in Hlast. subst ms.
           rewrite for_each_nil in Hrun. simplify_eq.
           destruct (last ks); exact HS2.
    + injection Hrun as <- <-.
      destruct (strikes_loop m ks None w1 _ _ HI1 HS1 Hin)
        as (rows1 & Hrows1 & Hres1 & _).
      exists rows1. split; [by rewrite Hrows1, Hout1|].
      split; [|done]. simpl. by apply run_result_raised_app.
Qed.
End GridLoop.

(** ** [valuation_benchmarking] is such a pair of loops *)

Local Arguments T_at : simpl never.
Local Arguments set_object : simpl never.
Local Arguments fsub : simpl never.
Local Arguments fdiv : simpl never.
Local Arguments fmul : simpl never.
Local Arguments env_at : simpl never.
Local Arguments object_at : simpl never.
Local Arguments bsm_at : simpl never.

Lemma benchmark_strike_step x f w0 m k ok w :
  during x w0 w -> fourier_stands x m ok w ->
  match benchmark_strike x f m k w with
  | (Returned _, w') =>
      during x w0 w' /\ fourier_stands x m (Some k) w' /\
      exists l, priced_at (fourier_benchmark x f w0) (m, k) l /\
                stdout w' = stdout w ++ [l]
  | (Raised err, w') =>
      stdout w' = stdout w /\ fails_at (fourier_benchmark x f w0) (m, k) err
  end.
Proof.
  intros (He & Ho & Hb & Hy) (Hvm & Hem & _).
  unfold benchmark_strike. run_statements.
  rewrite set_object_same.
  rewrite (update_strike_object_at _ _ m k Ho Hvm).
  set (e0 := updated (engine w) _).
  destruct (present_value e0 (object_at (objects w0 x) (m, k)))
    as [[mcs|err] e'] eqn:Hpv.
  - world_fields. rewrite (add_strike_env_at _ _ m k He Hem).
    destruct (f (env_at (me_option w0) (m, k))) as [fou|err] eqn:Hf;
      world_fields.
    + unfold during, fourier_stands. world_fields. split; [|split].
      * split; [apply same_env_env_at|].
        split; [rewrite set_object_same; apply same_object_object_at|].
        split; [exact Hb|].
        intros y Hne. rewrite set_object_other by done. by apply Hy.
      * split; [by rewrite set_object_same|].
        split; [|apply get_add_constant].
        unfold env_at. rewrite get_add_constant_ne by done.
        apply get_add_constant.
      * eexists. split; [|reflexivity].
        exists e0, e', mcs, fou.
        destruct He as [-> _]. by repeat split.
    + split; [done|]. right. by exists e0, e', mcs.
  - simpl. split; [done|]. left. by exists e0, e'.
Qed.

Lemma benchmark_maturity_step x f w0 m w :
  during x w0 w ->
  exists w1, during x w0 w1 /\ fourier_stands x m None w1 /\
             stdout w1 = stdout w /\
             benchmark_maturity x f m w =
               for_each strike_grid (benchmark_strike x f m) w1.
Proof.
  intros (He & Ho & Hb & Hy).
  eexists. split; [|split; [|split; [|reflexivity]]].
  - unfold during. world_fields.
    split; [by apply same_env_add_maturity|].
    split; [rewrite set_object_same; by apply same_object_update_maturity|].
    split; [exact Hb|].
    intros y Hne. rewrite set_object_other by done. by apply Hy.
  - unfold fourier_stands. world_fields.
    split; [by rewrite set_object_same|]. split; [|done].
    apply get_add_constant.
  - reflexivity.
Qed.

(** What a call of [valuation_benchmarking] prints and how it ends. *)
Lemma valuation_benchmarking_run x f w o w' :
  valuation_benchmarking x f w = (o, w') ->
  exists rows,
    stdout w' = stdout w ++ header :: rows /\
    run_result (fourier_benchmark x f w) grid rows o /\
    match o with
    | Returned _ =>
        during x w w' /\
        forall m, last maturity_grid = Some m ->
                  fourier_stands x m (last strike_grid) w'
    | Raised _ => True
    end.
Proof.
  unfold valuation_benchmarking. rewrite bind_run.
  unfold print at 1. intros Hrun.
  set (w1 := World (me_option w) (objects w) (bsm_option w) (engine w)
                   (stdout w ++ [header])) in Hrun.
  assert (Hd : during x w w1) by apply during_start.
  destruct (maturities_loop (fourier_benchmark x f w) (during x w)
              (fourier_stands x) strike_grid (benchmark_strike x f)
              (benchmark_maturity x f)
              (fun m k ok w2 => benchmark_strike_step x f w m k ok w2)
              (fun m w2 => benchmark_maturity_step x f w m w2)
              maturity_grid w1 o w' Hd Hrun)
    as (rows & Hrows & Hres & Hend).
  exists rows. split; [|split; [exact Hres | exact Hend]].
  rewrite Hrows. subst w1. simpl. by rewrite <- app_assoc.
Qed.

(** ** The two geometric Brownian motion cells are such loops too *)

Lemma gbm_put_strike_step w0 m k ok w :
  during euro_put_gbm w0 w -> gbm_put_stands m ok w ->
  match gbm_put_strike m k w with
  | (Returned _, w') =>
      during euro_put_gbm w0 w' /\ gbm_put_stands m (Some k) w' /\
      exists l, priced_at (bsm_put_benchmark w0) (m, k) l /\
                stdout w' = stdout w ++ [l]
  | (Raised err, w') =>
      stdout w' = stdout w /\ fails_at (bsm_put_benchmark w0) (m, k) err
  end.
Proof.
  intros (He & Ho & Hb & Hy) (Hvm & Hbm).
  unfold gbm_put_strike. run_statements.
  rewrite set_object_same.
  rewrite (update_strike_object_at _ _ m k Ho Hvm).
  set (e0 := updated (engine w) _).
  destruct (present_value e0
              (object_at (objects w0 euro_put_gbm) (m, k)))
    as [[mcs|err] e'] eqn:Hpv.
  - world_fields. rewrite (set_strike_bsm_at _ _ m k Hb Hbm).
    destruct (put_value (bsm_at (bsm_option w0) (m, k)))
      as [fou|err] eqn:Hf; world_fields.
    + unfold during, gbm_put_stands. world_fields. split; [|split].
      * split; [exact He|].
        split; [rewrite set_object_same; apply same_object_object_at|].
        split; [apply same_bsm_bsm_at|].
        intros y Hne. rewrite set_object_other by done. by apply Hy.
      * split; [by rewrite set_object_same | reflexivity].
      * eexists. split; [|reflexivity].
        exists e0, e', mcs, fou.
        destruct He as [-> _]. by repeat split.
    + split; [done|]. right. by exists e0, e', mcs.
  - simpl. split; [done|]. left. by exists e0, e'.
Qed.

Lemma gbm_put_maturity_step w0 m w :
  during euro_put_gbm w0 w ->
  exists w1, during euro_put_gbm w0 w1 /\ gbm_put_stands m None w1 /\
             stdout w1 = stdout w /\
             gbm_put_maturity m w = for_each strike_grid (gbm_put_strike m) w1.
Proof.
  intros (He & Ho & Hb & Hy).
  eexists. split; [|split; [|split; [|reflexivity]]].
  - unfold during. world_fields.
    split; [exact He|].
    split; [rewrite set_object_same; by apply same_object_update_maturity|].
    split; [by apply same_bsm_set_maturity|].
    intros y Hne. rewrite set_object_other by done. by apply Hy.
  - unfold gbm_put_stands. world_fields.
    split; [by rewrite set_object_same | reflexivity].
  - reflexivity.
Qed.

Lemma gbm_put_benchmark_run w o w' :
  gbm_put_benchmark w = (o, w') ->
  exists rows,
    stdout w' = stdout w ++ header :: rows /\
    run_result (bsm_put_benchmark w) grid rows o /\
    match o with
    | Returned _ => during euro_put_gbm w w'
    | Raised _ => True
    end.
Proof.
  unfold gbm_put_benchmark. rewrite bind_run.
  unfold print at 1. intros Hrun.
  set (w1 := World (me_option w) (objects w) (bsm_option w) (engine w)
                   (stdout w ++ [header])) in Hrun.
  assert (Hd : during euro_put_gbm w w1) by apply during_start.
  destruct (maturities_loop (bsm_put_benchmark w) (during euro_put_gbm w)
              gbm_put_stands strike_grid gbm_put_strike gbm_put_maturity
              (fun m k ok w2 => gbm_put_strike_step w m k ok w2)
              (fun m w2 => gbm_put_maturity_step w m w2)
              maturity_grid w1 o w' Hd Hrun)
    as (rows & Hrows & Hres & Hend).
  exists rows. split; [|split; [exact Hres|]].
  - rewrite Hrows. subst w1. simpl. by rewrite <- app_assoc.
  - destruct o; [apply Hend | done].
Qed.

Lemma gbm_call_strike_step w0 m k ok w :
  during euro_call_gbm w0 w -> gbm_call_stands m ok w ->
  match gbm_call_strike m k w with
  | (Returned _, w') =>
      during euro_call_gbm w0 w' /\ gbm_call_stands m (Some k) w' /\
      exists l, priced_at (bsm_call_benchmark w0) (m, k) l /\
                stdout w' = stdout w ++ [l]
  | (Raised err, w') =>
      stdout w' = stdout w /\ fails_at (bsm_call_benchmark w0) (m, k) err
  end.
Proof.
  intros (He & Ho & Hb & Hy) Hvm. unfold gbm_call_stands in Hvm.
  unfold gbm_call_strike. run_statements.
  rewrite set_object_same.
  rewrite (update_strike_object_at _ _ m k Ho Hvm).
  set (e0 := updated (engine w) _).
  destruct (present_value e0
              (object_at (objects w0 euro_call_gbm) (m, k)))
    as [[mcs|err] e'] eqn:Hpv.
  - world_fields. rewrite (set_both_bsm_at _ _ m k Hb).
    destruct (call_value (bsm_at (bsm_option w0) (m, k)))
      as [fou|err] eqn:Hf; world_fields.
    + unfold during, gbm_call_stands. world_fields. split; [|split].
      * split; [exact He|].
        split; [rewrite set_object_same; apply same_object_object_at|].
        split; [apply same_bsm_bsm_at|].
        intros y Hne. rewrite set_object_other by done. by apply Hy.
      * by rewrite set_object_same.
      * eexists. split; [|reflexivity].
        exists e0, e', mcs, fou.
        destruct He as [-> _]. by repeat split.
    + split; [done|]. right. by exists e0, e', mcs.
  - simpl. split; [done|]. left. by exists e0, e'.
Qed.

Lemma gbm_call_maturity_step w0 m w :
  during euro_call_gbm w0 w ->
  exists w1, during euro_call_gbm w0 w1 /\ gbm_call_stands m None w1 /\
             stdout w1 = stdout w /\
             gbm_call_maturity m w =
               for_each strike_grid (gbm_call_strike m) w1.
Proof.
  intros (He & Ho & Hb & Hy).
  eexists. split; [|split; [|split; [|reflexivity]]].
  - unfold during. world_fields.
    split; [exact He|].
    split; [rewrite set_object_same; by apply same_object_update_maturity|].
    split; [exact Hb|].
    intros y Hne. rewrite set_object_other by done. by apply Hy.
  - unfold gbm_call_stands. world_fields. by rewrite set_object_same.
  - reflexivity.
Qed.

Lemma gbm_call_benchmark_run w o w' :
  gbm_call_benchmark w = (o, w') ->
  exists rows,
    stdout w' = stdout w ++ header :: rows /\
    run_result (bsm_call_benchmark w) grid rows o /\
    match o with
    | Returned _ => during euro_call_gbm w w'
    | Raised _ => True
    end.
Proof.
  unfold gbm_call_benchmark. rewrite bind_run.
  unfold print at 1. intros Hrun.
  set (w1 := World (me_option w) (objects w) (bsm_option w) (engine w)
                   (stdout w ++ [header])) in Hrun.
  assert (Hd : during euro_call_gbm w w1) by apply during_start.
  destruct (maturities_loop (bsm_call_benchmark w) (during euro_call_gbm w)
              gbm_call_stands strike_grid gbm_call_strike gbm_call_maturity
              (fun m k ok w2 => gbm_call_strike_step w m k ok w2)
              (fun m w2 => gbm_call_maturity_step w m w2)
              maturity_grid w1 o w' Hd Hrun)
    as (rows & Hrows & Hres & Hend).
  exists rows. split; [|split; [exact Hres|]].
  - rewrite Hrows. subst w1. simpl. by rewrite <- app_assoc.
  - destruct o; [apply Hend | done].
Qed.

(** ** Every benchmark program at once *)

Lemma benchmark_run_result c b w o w' :
  benchmark_run c b ->
  c w = (o, w') ->
  exists rows,
    stdout w' = stdout w ++ header :: rows /\ run_result (b w) grid rows o.
Proof.
  intros [ | |x f] Hrun.
  - destruct (gbm_put_benchmark_run w o w' Hrun) as (rows & H1 & H2 & _).
    by exists rows.
  - destruct (gbm_call_benchmark_run w o w' Hrun) as (rows & H1 & H2 & _).
    by exists rows.
  - destruct (valuation_benchmarking_run x f w o w' Hrun)
      as (rows & H1 & H2 & _).
    by exists rows.
Qed.

Lemma benchmark_anchor c b w :
  benchmark_run c b -> anchor (b w) = pricing_date (me_option w).
Proof. by intros [ | |x f]. Qed.

Lemma benchmark_rel_decimals c b w :
  benchmark_run c b -> rel_decimals (b w) = 2%nat \/ rel_decimals (b w) = 3%nat.
Proof. intros [ | |x f]; simpl; auto. Qed.

(** ** What no statement of a run changes *)

Lemma for_each_preserves {A} (P : world -> Prop) (body : A -> M unit) xs :
  (forall x w, P w -> P (body x w).2) ->
  forall w, P w -> P (for_each xs body w).2.
Proof.
  intros Hbody. induction xs as [|x xs IH]; intros w Hw; [exact Hw|].
  rewrite for_each_cons. specialize (Hbody x w Hw).
  destruct (body x w) as [[[]|err] w1]; simpl in *; auto.
Qed.

Lemma benchmark_strike_pricing_date x f m k w :
  pricing_date (me_option (benchmark_strike x f m k w).2) =
  pricing_date (me_option w).
Proof.
  unfold benchmark_strike. run_statements.
  destruct (present_value _ _) as [[mcs|err] e']; [|reflexivity].
  world_fields. destruct (f _); reflexivity.
Qed.

Lemma valuation_benchmarking_pricing_date x f w :
  pricing_date (me_option (valuation_benchmarking x f w).2) =
  pricing_date (me_option w).
Proof.
  unfold valuation_benchmarking. rewrite bind_run. unfold print at 1.
  apply (for_each_preserves
           (fun w' => pricing_date (me_option w')
                      = pricing_date (me_option w)));
    [|reflexivity].
  intros m w1 H1. unfold benchmark_maturity. rewrite !bind_run.
  unfold update_maturity_of, me_option_add_constant. world_fields.
  apply (for_each_preserves
           (fun w' => pricing_date (me_option w')
                      = pricing_date (me_option w)));
    [|exact H1].
  intros k w2 H2. by rewrite benchmark_strike_pricing_date.
Qed.

Lemma gbm_put_strike_me_option m k w :
  me_option (gbm_put_strike m k w).2 = me_option w.
Proof.
  unfold gbm_put_strike. run_statements.
  destruct (present_value _ _) as [[mcs|err] e']; [|reflexivity].
  world_fields. destruct (put_value _); reflexivity.
Qed.

Lemma gbm_put_benchmark_me_option w :
  me_option (gbm_put_benchmark w).2 = me_option w.
Proof.
  unfold gbm_put_benchmark. rewrite bind_run. unfold print at 1.
  apply (for_each_preserves (fun w' => me_option w' = me_option w));
    [|reflexivity].
  intros m w1 H1. unfold gbm_put_maturity. rewrite !bind_run.
  unfold update_maturity_of, bsm_option_set_maturity. world_fields.
  apply (for_each_preserves (fun w' => me_option w' = me_option w));
    [|exact H1].
  intros k w2 H2. by rewrite gbm_put_strike_me_option.
Qed.

Lemma gbm_call_strike_me_option m k w :
  me_option (gbm_call_strike m k w).2 = me_option w.
Proof.
  unfold gbm_call_strike. run_statements.
  destruct (present_value _ _) as [[mcs|err] e']; [|reflexivity].
  world_fields. destruct (call_value _); reflexivity.
Qed.

Lemma gbm_call_benchmark_me_option w :
  me_option (gbm_call_benchmark w).2 = me_option w.
Proof.
  unfold gbm_call_benchmark. rewrite bind_run. unfold print at 1.
  apply (for_each_preserves (fun w' => me_option w' = me_option w));
    [|reflexivity].
  intros m w1 H1. unfold gbm_call_maturity. rewrite !bind_run.
  unfold update_maturity_of. world_fields.
  apply (for_each_preserves (fun w' => me_option w' = me_option w));
    [|exact H1].
  intros k w2 H2. by rewrite gbm_call_strike_me_option.
Qed.

Lemma benchmark_run_pricing_date c b w :
  benchmark_run c b ->
  pricing_date (me_option (c w).2) = pricing_date (me_option w).
Proof.
  intros [ | |x f].
  - by rewrite gbm_put_benchmark_me_option.
  - by rewrite gbm_call_benchmark_me_option.
  - apply valuation_benchmarking_pricing_date.
Qed.

(* =================================================================== *)
(** * The benchmark table *)
(* =================================================================== *)

(** C3.  A benchmark prints the header and then, grid point by grid
    point in the order of the grid, exactly one row per point: the year
    fraction and the strike with 3 decimals, the Monte Carlo estimate
    [mcs], the reference price [fou] and [mcs - fou] with 4 decimals, and
    [(mcs - fou) / fou * 100] with 2 decimals (the geometric Brownian
    motion cells) or 3 ([valuation_benchmarking]).  A run that returns
    has printed the rows of the whole grid. *)
Theorem one_row_per_grid_point c b w :
  benchmark_run c b ->
  exists rows done rest,
    stdout (c w).2 = stdout w ++ header :: rows /\
    grid = done ++ rest /\
    match (c w).1 with Returned _ => rest = [] | Raised _ => rest <> [] end /\
    Forall2 (fun mk l =>
      exists e e' mcs fou p,
        present_value e (object_at (priced (b w)) mk) = (Returned mcs, e') /\
        reference (b w) mk = Returned fou /\
        (p = 2 \/ p = 3)%nat /\
        comparison_row (T_at (pricing_date (me_option w)) mk.1) mk.2
                       mcs fou p l) done rows.
Proof.
  intros Hc. destruct (c w) as [o w'] eqn:Hrun.
  destruct (benchmark_run_result c b w o w' Hc Hrun)
    as (rows & Hout & done & rest & Hg & Hrows & Ho).
  exists rows, done, rest. split; [exact Hout|]. split; [exact Hg|].
  split.
  - simpl. destruct o; [exact Ho|].
    destruct Ho as (mk & rest' & -> & _). discriminate.
  - eapply Forall2_impl; [exact Hrows|].
    intros mk l (e & e' & mcs & fou & Hpv & Hf & ->).
    exists e, e', mcs, fou, (rel_decimals (b w)).
    split; [exact Hpv|]. split; [exact Hf|].
    split; [by apply (benchmark_rel_decimals c)|].
    rewrite (benchmark_anchor c b w Hc). reflexivity.
Qed.


(** C10.  The year fraction of every printed row is the number of days
    from the pricing date of [me_option] to the maturity of the row's
    grid point, divided by 365; a run leaves the pricing date as it is.
    The pricing date is 2015-01-01, so the first maturity 2015-03-31
    gives 89/365, printed 0.244; counted from the start date 2015-03-01 it
    would be 30/365, printed 0.082. *)
Theorem year_fraction_anchor c b w :
  benchmark_run c b ->
  (exists rows done rest,
     stdout (c w).2 = stdout w ++ header :: rows /\
     grid = done ++ rest /\
     Forall2 (fun mk l =>
       head l = Some
         (CellF 4 3
            (of_Q (inject_Z (days_between (pricing_date (me_option w)) mk.1)
                   / inject_Z 365)), " | "%string)) done rows) /\
  pricing_date (me_option (c w).2) = pricing_date (me_option w) /\
  pricing_date me_option_0 = Date 2015 1 1 /\
  head maturity_grid = Some (Date 2015 3 31) /\
  days_between (Date 2015 1 1) (Date 2015 3 31) = 89%Z /\
  format_f 4 3 (of_Q (89 # 365)) = "0.244"%string /\
  days_between start_date (Date 2015 3 31) = 30%Z /\
  format_f 4 3 (of_Q (30 # 365)) = "0.082"%string.
Proof.
  intros Hc. split; [|split; [by apply (benchmark_run_pricing_date c b)|]].
  - destruct (c w) as [o w'] eqn:Hrun.
    destruct (benchmark_run_result c b w o w' Hc Hrun)
      as (rows & Hout & done & rest & Hg & Hrows & Ho).
    exists rows, done, rest. split; [exact Hout|]. split; [exact Hg|].
    eapply Forall2_impl; [exact Hrows|].
    intros mk l (e & e' & mcs & fou & _ & _ & ->).
    rewrite (benchmark_anchor c b w Hc). reflexivity.
  - repeat split; vm_compute; reflexivity.
Qed.

Lemma Forall2_elem_of_l {A B} (P : A -> B -> Prop) l k x :
  Forall2 P l k -> x ∈ l -> exists y, P x y.
Proof.
  intros H Hx. induction H as [|a y l k Hay H IH].
  - by apply elem_of_nil in Hx.
  - apply elem_of_cons in Hx as [->|Hx]; [by exists y | by apply IH].
Qed.

(** C2, as the code has it.  [valuation_benchmarking] catches nothing:
    when one of the two prices of a grid point is not obtained, the error
    propagates and ends the run there.  What has been printed are the
    rows of the grid points before the failing one and nothing else, no
    row for the failing point and none for the points after it; a run
    returns only if every price of the grid was obtained.  In particular
    a pricing function that fails for some grid point makes the run
    raise. *)
Theorem failed_point_ends_run x f w :
  (exists rows done rest,
     stdout (valuation_benchmarking x f w).2 = stdout w ++ header :: rows /\
     grid = done ++ rest /\
     Forall2 (priced_at (fourier_benchmark x f w)) done rows /\
     match (valuation_benchmarking x f w).1 with
     | Returned _ => rest = [] /\ length rows = 15%nat
     | Raised err =>
         (length rows < 15)%nat /\
         exists mk rest',
           rest = mk :: rest' /\ fails_at (fourier_benchmark x f w) mk err
     end) /\
  forall mk err,
    mk ∈ grid -> f (env_at (me_option w) mk) = Raised err ->
    exists err', (valuation_benchmarking x f w).1 = Raised err'.
Proof.
  destruct (valuation_benchmarking x f w) as [o w'] eqn:Hrun.
  destruct (benchmark_run_result _ _ w o w' (fourier_run x f) Hrun)
    as (rows & Hout & Hres).
  pose proof Hres as (done & rest & Hg & Hrows & Ho).
  split.
  - exists rows, done, rest. split; [exact Hout|]. split; [exact Hg|].
    split; [exact Hrows|]. simpl. destruct o as [u|err].
    + split; [exact Ho|]. apply (run_result_returned_length _ _ _ _ Hres).
    + split; [|exact Ho]. apply (run_result_raised_length _ _ _ _ Hres).
  - intros mk err Hmk Hf. simpl. destruct o as [[]|err']; [|by exists err'].
    subst rest. rewrite app_nil_r in Hg. subst done.
    destruct (Forall2_elem_of_l _ _ _ mk Hrows Hmk)
      as (l & e & e' & mcs & fou & _ & Hfou & _).
    simpl in Hfou. congruence.
Qed.

Lemma valuation_benchmarking_final_env x f w w' u :
  valuation_benchmarking x f w = (Returned u, w') ->
  get_constant "strike" (me_option w') = Some (CFloat (of_Q 120)) /\
  get_constant "maturity" (me_option w') = Some (CDate (Date 2015 7 31)) /\
  me_option w' = env_at (me_option w) last_point.
Proof.
  intros Hrun.
  destruct (valuation_benchmarking_run x f w _ w' Hrun)
    as (rows & _ & _ & (He & _) & Hst).
  destruct (Hst (Date 2015 7 31) eq_refl) as (_ & Hm & Hk).
  change (last strike_grid) with (Some (of_Q 120)) in Hk.
  split; [exact Hk|]. split; [exact Hm|]. by apply env_at_reached.
Qed.

(** C8.  [valuation_benchmarking] writes into the shared [me_option]:
    when a run returns, the constant [strike] is the last strike of the
    grid, 120, and the constant [maturity] the last maturity,
    2015-07-31, all else in the environment being as before; whatever
    runs next starts from this environment, not from the strike 100 and
    the maturity 2015-12-31 it was constructed with. *)
Theorem me_option_left_mutated x f w w' u :
  valuation_benchmarking x f w = (Returned u, w') ->
  get_constant "strike" (me_option w') = Some (CFloat (of_Q 120)) /\
  get_constant "maturity" (me_option w') = Some (CDate (Date 2015 7 31)) /\
  me_option w' = env_at (me_option w) (Date 2015 7 31, of_Q 120) /\
  (forall x' f',
      (valuation_benchmarking x f ;; valuation_benchmarking x' f') w =
      valuation_benchmarking x' f' w') /\
  get_constant "strike" me_option_0 = Some (CFloat (of_Q 100)) /\
  get_constant "maturity" me_option_0 = Some (CDate (Date 2015 12 31)).
Proof.
  intros Hrun.
  destruct (valuation_benchmarking_final_env x f w w' u Hrun)
    as (Hk & Hm & He).
  split; [exact Hk|]. split; [exact Hm|]. split; [exact He|].
  split; [|split; vm_compute; reflexivity].
  intros x' f'. rewrite bind_run, Hrun. reflexivity.
Qed.

(** ** The environment from cell to cell *)

Lemma run_cell_me_option c w w' u :
  run_cell c w = (Returned u, w') ->
  me_option w' = match uses_fourier c with
                 | Some _ => env_at (me_option w) last_point
                 | None => me_option w
                 end.
Proof.
  destruct c as [x| | |x f]; simpl; intros Hrun.
  - rewrite bind_run in Hrun. unfold present_value_of in Hrun.
    destruct (present_value (engine w) (objects w x)) as [[v|err] e'];
      [|discriminate].
    unfold mret, M_ret in Hrun. by simplify_eq.
  - rewrite <- (gbm_put_benchmark_me_option w). by rewrite Hrun.
  - rewrite <- (gbm_call_benchmark_me_option w). by rewrite Hrun.
  - by apply (valuation_benchmarking_final_env x (dx f) w w' u).
Qed.

Lemma env_at_twice env mk : env_at (env_at env mk) mk = env_at env mk.
Proof. apply same_env_env_at. Qed.

(** After cells that all returned, [me_option] is as it was if none of
    them called [valuation_benchmarking], and holds the last grid point
    otherwise. *)
Lemma cells_me_option cs : forall w w' u,
  for_each cs run_cell w = (Returned u, w') ->
  me_option w' = if benchmarking_among cs
                 then env_at (me_option w) last_point
                 else me_option w.
Proof.
  induction cs as [|c cs IH]; intros w w' u Hrun.
  - rewrite for_each_nil in Hrun. by simplify_eq.
  - rewrite for_each_cons in Hrun.
    destruct (run_cell c w) as [[[]|err] w1] eqn:Hc; [|discriminate].
    rewrite (IH w1 w' u Hrun), (run_cell_me_option c w w1 tt Hc).
    simpl. destruct (uses_fourier c); simpl.
    + destruct (benchmarking_among cs); [apply env_at_twice | reflexivity].
    + reflexivity.
Qed.

(** In the notebook the first call of [valuation_benchmarking] (the
    sixth cell) starts from the environment as constructed, every later
    one from the environment the call before it left. *)
Lemma notebook_me_option n e w u :
  for_each (take n notebook_cells) run_cell (initial_world e)
    = (Returned u, w) ->
  me_option w = if (n <=? 5)%nat then me_option_0
                else env_at me_option_0 last_point.
Proof.
  intros Hrun. rewrite (cells_me_option _ _ _ _ Hrun).
  do 6 (destruct n as [|n]; [reflexivity|]).
  replace (S (S (S (S (S (S n))))) <=? 5)%nat with false by reflexivity.
  replace (benchmarking_among (take (S (S (S (S (S (S n)))))) notebook_cells))
    with true; [reflexivity|].
  reflexivity.
Qed.
(* =================================================================== *)
(** * What a run writes to, and what it leaves alone *)
(* =================================================================== *)

(** ** The loop bodies, statement by statement *)

Lemma benchmark_strike_effect x f m k w :
  benchmark_strike x f m k w =
    let o := update_strike k (objects w x) in
    let obs := set_object x o (objects w) in
    match present_value (updated (engine w) o) o with
    | (Raised err, e') =>
        (Raised err, World (me_option w) obs (bsm_option w) e' (stdout w))
    | (Returned mcs, e') =>
        let env := add_constant "strike" (CFloat k) (me_option w) in
        match f env with
        | Raised err => (Raised err, World env obs (bsm_option w) e' (stdout w))
        | Returned fou =>
            (Returned tt,
             World env obs (bsm_option w) e'
               (stdout w ++
                [row 3 (T_at (pricing_date (me_option w)) m) k mcs fou]))
        end
    end.
Proof.
  unfold benchmark_strike. run_statements. rewrite set_object_same.
  destruct (present_value _ _) as [[mcs|err] e']; [|reflexivity].
  world_fields. destruct (f _); reflexivity.
Qed.

Lemma gbm_put_strike_effect m k w :
  gbm_put_strike m k w =
    let o := update_strike k (objects w euro_put_gbm) in
    let obs := set_object euro_put_gbm o (objects w) in
    match present_value (updated (engine w) o) o with
    | (Raised err, e') =>
        (Raised err, World (me_option w) obs (bsm_option w) e' (stdout w))
    | (Returned mcs, e') =>
        let b := set_bsm_strike k (bsm_option w) in
        match put_value b with
        | Raised err => (Raised err, World (me_option w) obs b e' (stdout w))
        | Returned ana =>
            (Returned tt,
             World (me_option w) obs b e'
               (stdout w ++
                [row 2 (T_at (pricing_date (me_option w)) m) k mcs ana]))
        end
    end.
Proof.
  unfold gbm_put_strike. run_statements. rewrite set_object_same.
  destruct (present_value _ _) as [[mcs|err] e']; [|reflexivity].
  world_fields. destruct (put_value _); reflexivity.
Qed.

Lemma gbm_call_strike_effect m k w :
  gbm_call_strike m k w =
    let o := update_strike k (objects w euro_call_gbm) in
    let obs := set_object euro_call_gbm o (objects w) in
    match present_value (updated (engine w) o) o with
    | (Raised err, e') =>
        (Raised err, World (me_option w) obs (bsm_option w) e' (stdout w))
    | (Returned mcs, e') =>
        let b := set_bsm_maturity m (set_bsm_strike k (bsm_option w)) in
        match call_value b with
        | Raised err => (Raised err, World (me_option w) obs b e' (stdout w))
        | Returned ana =>
            (Returned tt,
             World (me_option w) obs b e'
               (stdout w ++
                [row 2 (T_at (pricing_date (me_option w)) m) k mcs ana]))
        end
    end.
Proof.
  unfold gbm_call_strike. run_statements. rewrite set_object_same.
  destruct (present_value _ _) as [[mcs|err] e']; [|reflexivity].
  world_fields. destruct (call_value _); reflexivity.
Qed.

(** ** The frame of [valuation_benchmarking] *)

Lemma benchmarking_frame_refl x w : benchmarking_frame x w w.
Proof. repeat split. Qed.

Lemma benchmarking_frame_trans x w1 w2 w3 :
  benchmarking_frame x w1 w2 -> benchmarking_frame x w2 w3 ->
  benchmarking_frame x w1 w3.
Proof.
  intros (A1 & A2 & A3 & A4 & A5 & A6 & A7 & A8 & A9)
         (B1 & B2 & B3 & B4 & B5 & B6 & B7 & B8 & B9).
  unfold benchmarking_frame.
  rewrite B1, B3, B4, B5, B6, B7, B8.
  repeat (split; [done|]). split.
  - intros y Hy. by rewrite B2, A2.
  - repeat (split; [done|]). intros key H1 H2. by rewrite B9, A9.
Qed.

Lemma update_strike_frame x k w e out :
  benchmarking_frame x w
    (World (me_option w)
           (set_object x (update_strike k (objects w x)) (objects w))
           (bsm_option w) e out).
Proof.
  unfold benchmarking_frame. world_fields. rewrite set_object_same.
  split; [done|]. split; [|done].
  intros y Hy. by rewrite set_object_other.
Qed.

Lemma update_maturity_frame x m w e out :
  benchmarking_frame x w
    (World (me_option w)
           (set_object x (update_maturity m (objects w x)) (objects w))
           (bsm_option w) e out).
Proof.
  unfold benchmarking_frame. world_fields. rewrite set_object_same.
  split; [done|]. split; [|done].
  intros y Hy. by rewrite set_object_other.
Qed.

Lemma add_strike_frame x k w e out :
  benchmarking_frame x w
    (World (add_constant "strike" (CFloat k) (me_option w)) (objects w)
           (bsm_option w) e out).
Proof.
  unfold benchmarking_frame. world_fields.
  repeat (split; [done|]). intros key H1 H2.
  by rewrite get_add_constant_ne.
Qed.

Lemma add_maturity_frame x m w e out :
  benchmarking_frame x w
    (World (add_constant "maturity" (CDate m) (me_option w)) (objects w)
           (bsm_option w) e out).
Proof.
  unfold benchmarking_frame. world_fields.
  repeat (split; [done|]). intros key H1 H2.
  by rewrite get_add_constant_ne.
Qed.

Lemma benchmark_strike_frame x f m k w :
  benchmarking_frame x w (benchmark_strike x f m k w).2.
Proof.
  rewrite benchmark_strike_effect. cbv zeta.
  destruct (present_value _ _) as [[mcs|err] e'];
    [|apply update_strike_frame].
  assert (H : forall out,
    benchmarking_frame x w
      (World (add_constant "strike" (CFloat k) (me_option w))
         (set_object x (update_strike k (objects w x)) (objects w))
         (bsm_option w) e' out)).
  { intros out.
    eapply benchmarking_frame_trans;
      [apply (update_strike_frame x k w e' out)|].
    apply (add_strike_frame x k
             (World (me_option w) _ (bsm_option w) e' out)). }
  destruct (f _); apply H.
Qed.

Lemma benchmark_maturity_frame x f m w :
  benchmarking_frame x w (benchmark_maturity x f m w).2.
Proof.
  unfold benchmark_maturity. rewrite !bind_run.
  unfold update_maturity_of, me_option_add_constant. world_fields.
  apply (for_each_preserves (benchmarking_frame x w)).
  - intros k w1 H1. eapply benchmarking_frame_trans; [exact H1|].
    apply benchmark_strike_frame.
  - eapply benchmarking_frame_trans;
      [apply (update_maturity_frame x m w (updated (engine w)
                (update_maturity m (objects w x))) (stdout w))|].
    apply (add_maturity_frame x m (World (me_option w) _ (bsm_option w) _ _)).
Qed.

Lemma valuation_benchmarking_keeps x f w :
  benchmarking_frame x w (valuation_benchmarking x f w).2.
Proof.
  unfold valuation_benchmarking. rewrite bind_run. unfold print at 1.
  apply (for_each_preserves (benchmarking_frame x w)).
  - intros m w1 H1. eapply benchmarking_frame_trans; [exact H1|].
    apply benchmark_maturity_frame.
  - repeat split.
Qed.

(** X1.  Whether it returns or raises, a call of
    [valuation_benchmarking] on the object [x] leaves alone: the
    Black-Scholes-Merton object, every valuation object other than [x],
    the name, the underlying and the payoff of [x], and in [me_option]
    the name, the pricing date, the curves and every constant other than
    [strike] and [maturity]. *)
Theorem valuation_benchmarking_frame x f w :
  let w' := (valuation_benchmarking x f w).2 in
  bsm_option w' = bsm_option w /\
  (forall y, y <> x -> objects w' y = objects w y) /\
  vo_name (objects w' x) = vo_name (objects w x) /\
  underlying (objects w' x) = underlying (objects w x) /\
  payoff_func (objects w' x) = payoff_func (objects w x) /\
  name (me_option w') = name (me_option w) /\
  pricing_date (me_option w') = pricing_date (me_option w) /\
  curves (me_option w') = curves (me_option w) /\
  forall key, key <> "strike" -> key <> "maturity" ->
    get_constant key (me_option w') = get_constant key (me_option w).
Proof.
  intros w'. subst w'.
  change (benchmarking_frame x w (valuation_benchmarking x f w).2).
  unfold valuation_benchmarking. rewrite bind_run. unfold print at 1.
  apply (for_each_preserves (benchmarking_frame x w)).
  - intros m w1 H1. eapply benchmarking_frame_trans; [exact H1|].
    unfold benchmark_maturity. run_statements.
    apply (for_each_preserves (benchmarking_frame x w1)).
    + intros k w2 H2. eapply benchmarking_frame_trans; [exact H2|].
      apply benchmark_strike_frame.
    + eapply benchmarking_frame_trans;
        [apply (update_maturity_frame x m w1 (updated (engine w1)
                  (update_maturity m (objects w1 x))) (stdout w1))|].
      apply (add_maturity_frame x m
               (World (me_option w1) _ (bsm_option w1) _ _)).
  - unfold benchmarking_frame. world_fields. by repeat split.
Qed.

(** ** The frame of the geometric Brownian motion cells *)

Lemma gbm_frame_trans x w1 w2 w3 :
  gbm_frame x w1 w2 -> gbm_frame x w2 w3 -> gbm_frame x w1 w3.
Proof.
  intros (A1 & A2 & A3 & A4 & A5 & A6 & A7) (B1 & B2 & B3 & B4 & B5 & B6 & B7).
  unfold gbm_frame. rewrite B1, B3, B4, B5, B6, B7.
  split; [done|]. split; [|done].
  intros y Hy. by rewrite B2, A2.
Qed.

Lemma gbm_update_frame x w o b e out :
  vo_name o = vo_name (objects w x) ->
  underlying o = underlying (objects w x) ->
  payoff_func o = payoff_func (objects w x) ->
  bsm_name b = bsm_name (bsm_option w) ->
  bsm_env b = bsm_env (bsm_option w) ->
  gbm_frame x w (World (me_option w) (set_object x o (objects w)) b e out).
Proof.
  intros H1 H2 H3 H4 H5. unfold gbm_frame. world_fields.
  rewrite set_object_same. split; [done|]. split; [|done].
  intros y Hy. by rewrite set_object_other.
Qed.

Lemma gbm_put_strike_frame m k w :
  gbm_frame euro_put_gbm w (gbm_put_strike m k w).2.
Proof.
  rewrite gbm_put_strike_effect. cbv zeta.
  destruct (present_value _ _) as [[mcs|err] e'];
    [|by apply gbm_update_frame].
  destruct (put_value _); by apply gbm_update_frame.
Qed.

Lemma gbm_call_strike_frame m k w :
  gbm_frame euro_call_gbm w (gbm_call_strike m k w).2.
Proof.
  rewrite gbm_call_strike_effect. cbv zeta.
  destruct (present_value _ _) as [[mcs|err] e'];
    [|by apply gbm_update_frame].
  destruct (call_value _); by apply gbm_update_frame.
Qed.

Lemma gbm_put_benchmark_keeps w :
  gbm_frame euro_put_gbm w (gbm_put_benchmark w).2.
Proof.
  unfold gbm_put_benchmark. rewrite bind_run. unfold print at 1.
  apply (for_each_preserves (gbm_frame euro_put_gbm w));
    [|by repeat split].
  intros m w1 H1. unfold gbm_put_maturity. run_statements.
  apply (for_each_preserves (gbm_frame euro_put_gbm w)).
  - intros k w2 H2. eapply gbm_frame_trans; [exact H2|].
    apply gbm_put_strike_frame.
  - eapply gbm_frame_trans; [exact H1|]. by apply gbm_update_frame.
Qed.

Lemma gbm_call_benchmark_keeps w :
  gbm_frame euro_call_gbm w (gbm_call_benchmark w).2.
Proof.
  unfold gbm_call_benchmark. rewrite bind_run. unfold print at 1.
  apply (for_each_preserves (gbm_frame euro_call_gbm w));
    [|by repeat split].
  intros m w1 H1. unfold gbm_call_maturity. run_statements.
  apply (for_each_preserves (gbm_frame euro_call_gbm w)).
  - intros k w2 H2. eapply gbm_frame_trans; [exact H2|].
    apply gbm_call_strike_frame.
  - eapply gbm_frame_trans; [exact H1|]. by apply gbm_update_frame.
Qed.

(** X2.  Whether it returns or raises, each of the two geometric
    Brownian motion cells leaves [me_option] exactly as it is, and with
    it every valuation object other than its own; of its own object it
    keeps the name, the underlying and the payoff, and of [bsm_option] the
    name and the environment: it writes to the strike and the maturity of
    the two objects only. *)
Theorem gbm_cells_frame w :
  let wp := (gbm_put_benchmark w).2 in
  let wc := (gbm_call_benchmark w).2 in
  (me_option wp = me_option w /\
   (forall y, y <> euro_put_gbm -> objects wp y = objects w y) /\
   vo_name (objects wp euro_put_gbm) = vo_name (objects w euro_put_gbm) /\
   underlying (objects wp euro_put_gbm)
     = underlying (objects w euro_put_gbm) /\
   payoff_func (objects wp euro_put_gbm)
     = payoff_func (objects w euro_put_gbm) /\
   bsm_name (bsm_option wp) = bsm_name (bsm_option w) /\
   bsm_env (bsm_option wp) = bsm_env (bsm_option w)) /\
  (me_option wc = me_option w /\
   (forall y, y <> euro_call_gbm -> objects wc y = objects w y) /\
   vo_name (objects wc euro_call_gbm) = vo_name (objects w euro_call_gbm) /\
   underlying (objects wc euro_call_gbm)
     = underlying (objects w euro_call_gbm) /\
   payoff_func (objects wc euro_call_gbm)
     = payoff_func (objects w euro_call_gbm) /\
   bsm_name (bsm_option wc) = bsm_name (bsm_option w) /\
   bsm_env (bsm_option wc) = bsm_env (bsm_option w)).
Proof.
  intros wp wc. subst wp wc. split.
  - change (gbm_frame euro_put_gbm w (gbm_put_benchmark w).2).
    unfold gbm_put_benchmark. rewrite bind_run. unfold print at 1.
    apply (for_each_preserves (gbm_frame euro_put_gbm w));
      [|by repeat split].
    intros m w1 H1. unfold gbm_put_maturity. run_statements.
    apply (for_each_preserves (gbm_frame euro_put_gbm w)).
    + intros k w2 H2. eapply gbm_frame_trans; [exact H2|].
      apply gbm_put_strike_frame.
    + eapply gbm_frame_trans; [exact H1|]. by apply gbm_update_frame.
  - change (gbm_frame euro_call_gbm w (gbm_call_benchmark w).2).
    unfold gbm_call_benchmark. rewrite bind_run. unfold print at 1.
    apply (for_each_preserves (gbm_frame euro_call_gbm w));
      [|by repeat split].
    intros m w1 H1. unfold gbm_call_maturity. run_statements.
    apply (for_each_preserves (gbm_frame euro_call_gbm w)).
    + intros k w2 H2. eapply gbm_frame_trans; [exact H2|].
      apply gbm_call_strike_frame.
    + eapply gbm_frame_trans; [exact H1|]. by apply gbm_update_frame.
Qed.

(* =================================================================== *)
(** * Where a run leaves the objects *)
(* =================================================================== *)

(** What the last iteration of a loop that returned has established. *)
Lemma for_each_last {A} (Q : A -> world -> Prop) (body : A -> M unit) :
  (forall x w w' u, body x w = (Returned u, w') -> Q x w') ->
  forall xs w w' u x,
    for_each xs body w = (Returned u, w') -> last xs = Some x -> Q x w'.
Proof.
  intros Hbody. induction xs as [|y xs IH]; intros w w' u x Hrun Hlast;
    [done|].
  rewrite for_each_cons in Hrun.
  destruct (body y w) as [[[]|err] w1] eqn:Hy; [|discriminate].
  rewrite last_cons in Hlast. destruct (last xs) as [z|] eqn:Hz.
  - by apply (IH w1 w' u x).
  - apply last_None in Hz. subst xs. rewrite for_each_nil in Hrun.
    simplify_eq. by apply (Hbody x w w' tt).
Qed.

Lemma object_at_intro o o' m k :
  vo_name o' = vo_name o -> underlying o' = underlying o ->
  payoff_func o' = payoff_func o ->
  vo_strike o' = Some (CFloat k) -> vo_maturity o' = Some (CDate m) ->
  o' = object_at o (m, k).
Proof.
  destruct o, o'; unfold object_at; simpl. by intros -> -> -> -> ->.
Qed.

Lemma bsm_at_intro b b' m k :
  bsm_name b' = bsm_name b -> bsm_env b' = bsm_env b ->
  bsm_strike b' = Some (CFloat k) -> bsm_maturity b' = Some (CDate m) ->
  b' = bsm_at b (m, k).
Proof.
  destruct b, b'; unfold bsm_at; simpl. by intros -> -> -> ->.
Qed.

(** The strike of the object is set before anything can fail; the
    maturity is not touched in the inner loop. *)
Lemma benchmark_strike_object x f m k w :
  vo_strike (objects (benchmark_strike x f m k w).2 x) = Some (CFloat k) /\
  vo_maturity (objects (benchmark_strike x f m k w).2 x)
    = vo_maturity (objects w x).
Proof.
  rewrite benchmark_strike_effect. cbv zeta.
  destruct (present_value _ _) as [[mcs|err] e'];
    [destruct (f _)|]; cbn [snd]; world_fields; by rewrite set_object_same.
Qed.

Lemma benchmark_strikes_maturity x f m ks w :
  vo_maturity (objects w x) = Some (CDate m) ->
  vo_maturity (objects (for_each ks (benchmark_strike x f m) w).2 x)
    = Some (CDate m).
Proof.
  apply (for_each_preserves
           (fun w' => vo_maturity (objects w' x) = Some (CDate m))).
  intros k w1 H1. by rewrite (proj2 (benchmark_strike_object x f m k w1)).
Qed.

Lemma benchmark_maturity_start x f m w :
  benchmark_maturity x f m w =
    for_each strike_grid (benchmark_strike x f m)
      (World (add_constant "maturity" (CDate m) (me_option w))
             (set_object x (update_maturity m (objects w x)) (objects w))
             (bsm_option w)
             (updated (engine w) (update_maturity m (objects w x)))
             (stdout w)).
Proof. reflexivity. Qed.

Lemma benchmark_maturity_object x f m w :
  vo_maturity (objects (benchmark_maturity x f m w).2 x) = Some (CDate m).
Proof.
  rewrite benchmark_maturity_start. apply benchmark_strikes_maturity.
  world_fields. by rewrite set_object_same.
Qed.

Lemma benchmark_maturity_strike x f m w w' u :
  benchmark_maturity x f m w = (Returned u, w') ->
  vo_strike (objects w' x) = Some (CFloat (of_Q 120)).
Proof.
  rewrite benchmark_maturity_start. intros Hrun.
  refine (for_each_last
            (fun k w1 => vo_strike (objects w1 x) = Some (CFloat k))
            (benchmark_strike x f m) _ _ _ _ _ _ Hrun eq_refl).
  intros k w1 w2 u' Hk.
  pose proof (proj1 (benchmark_strike_object x f m k w1)) as H.
  by rewrite Hk in H.
Qed.

Lemma valuation_benchmarking_start x f w :
  valuation_benchmarking x f w =
    for_each maturity_grid (benchmark_maturity x f)
      (World (me_option w) (objects w) (bsm_option w) (engine w)
             (stdout w ++ [header])).
Proof. reflexivity. Qed.

(** X3.  When a call of [valuation_benchmarking] returns, the valuation
    object it was given is left at the last grid point: strike 120 and
    maturity 2015-07-31, whatever they were before, the rest of the
    object being as before.  A later [present_value()] of that object
    prices this option, not the one the object was constructed for. *)
Theorem valuation_object_left_at_last_point x f w w' u :
  valuation_benchmarking x f w = (Returned u, w') ->
  vo_strike (objects w' x) = Some (CFloat (of_Q 120)) /\
  vo_maturity (objects w' x) = Some (CDate (Date 2015 7 31)) /\
  objects w' x = object_at (objects w x) (Date 2015 7 31, of_Q 120) /\
  (present_value_of x w').1 =
    (present_value (engine w')
       (object_at (objects w x) (Date 2015 7 31, of_Q 120))).1.
Proof.
  intros Hrun.
  pose proof (valuation_benchmarking_keeps x f w) as Hframe.
  rewrite Hrun in Hframe. destruct Hframe as (_ & _ & Hn & Hu & Hp & _).
  rewrite valuation_benchmarking_start in Hrun.
  assert (Hlast : vo_maturity (objects w' x) = Some (CDate (Date 2015 7 31))
                  /\ vo_strike (objects w' x) = Some (CFloat (of_Q 120))).
  { refine (for_each_last
              (fun m w1 => vo_maturity (objects w1 x) = Some (CDate m) /\
                           vo_strike (objects w1 x) = Some (CFloat (of_Q 120)))
              (benchmark_maturity x f) _ _ _ _ _ _ Hrun eq_refl).
    intros m w1 w2 u' Hm. split.
    - pose proof (benchmark_maturity_object x f m w1) as H.
      by rewrite Hm in H.
    - by apply (benchmark_maturity_strike x f m w1 w2 u'). }
  destruct Hlast as [Hm Hk].
  assert (Ho : objects w' x
               = object_at (objects w x) (Date 2015 7 31, of_Q 120))
    by by apply object_at_intro.
  split; [exact Hk|]. split; [exact Hm|]. split; [exact Ho|].
  unfold present_value_of. rewrite Ho.
  by destruct (present_value _ _).
Qed.

(** ** The geometric Brownian motion cells *)

Lemma gbm_put_strike_object m k w :
  vo_strike (objects (gbm_put_strike m k w).2 euro_put_gbm)
    = Some (CFloat k) /\
  vo_maturity (objects (gbm_put_strike m k w).2 euro_put_gbm)
    = vo_maturity (objects w euro_put_gbm) /\
  bsm_maturity (bsm_option (gbm_put_strike m k w).2)
    = bsm_maturity (bsm_option w).
Proof.
  rewrite gbm_put_strike_effect. cbv zeta.
  destruct (present_value _ _) as [[mcs|err] e'];
    [destruct (put_value _)|]; cbn [snd]; world_fields;
    by rewrite set_object_same.
Qed.

Lemma gbm_put_strike_bsm m k w w' u :
  gbm_put_strike m k w = (Returned u, w') ->
  bsm_strike (bsm_option w') = Some (CFloat k).
Proof.
  rewrite gbm_put_strike_effect. cbv zeta.
  destruct (present_value _ _) as [[mcs|err] e']; [|discriminate].
  destruct (put_value _); [|discriminate]. by intros [= _ <-].
Qed.

Lemma gbm_call_strike_object m k w :
  vo_strike (objects (gbm_call_strike m k w).2 euro_call_gbm)
    = Some (CFloat k) /\
  vo_maturity (objects (gbm_call_strike m k w).2 euro_call_gbm)
    = vo_maturity (objects w euro_call_gbm).
Proof.
  rewrite gbm_call_strike_effect. cbv zeta.
  destruct (present_value _ _) as [[mcs|err] e'];
    [destruct (call_value _)|]; cbn [snd]; world_fields;
    by rewrite set_object_same.
Qed.

Lemma gbm_call_strike_bsm m k w w' u :
  gbm_call_strike m k w = (Returned u, w') ->
  bsm_strike (bsm_option w') = Some (CFloat k) /\
  bsm_maturity (bsm_option w') = Some (CDate m).
Proof.
  rewrite gbm_call_strike_effect. cbv zeta.
  destruct (present_value _ _) as [[mcs|err] e']; [|discriminate].
  destruct (call_value _); [|discriminate]. by intros [= _ <-].
Qed.

Lemma gbm_put_maturity_start m w :
  gbm_put_maturity m w =
    for_each strike_grid (gbm_put_strike m)
      (World (me_option w)
             (set_object euro_put_gbm
                (update_maturity m (objects w euro_put_gbm)) (objects w))
             (set_bsm_maturity m (bsm_option w))
             (updated (engine w) (update_maturity m (objects w euro_put_gbm)))
             (stdout w)).
Proof. reflexivity. Qed.

Lemma gbm_call_maturity_start m w :
  gbm_call_maturity m w =
    for_each strike_grid (gbm_call_strike m)
      (World (me_option w)
             (set_object euro_call_gbm
                (update_maturity m (objects w euro_call_gbm)) (objects w))
             (bsm_option w)
             (updated (engine w)
                (update_maturity m (objects w euro_call_gbm)))
             (stdout w)).
Proof. reflexivity. Qed.

Lemma gbm_put_maturity_end m w w' u :
  gbm_put_maturity m w = (Returned u, w') ->
  vo_strike (objects w' euro_put_gbm) = Some (CFloat (of_Q 120)) /\
  vo_maturity (objects w' euro_put_gbm) = Some (CDate m) /\
  bsm_strike (bsm_option w') = Some (CFloat (of_Q 120)) /\
  bsm_maturity (bsm_option w') = Some (CDate m).
Proof.
  rewrite gbm_put_maturity_start. intros Hrun.
  set (w1 := World _ _ _ _ _) in Hrun.
  assert (Hkeep :
    (fun w2 => vo_maturity (objects w2 euro_put_gbm) = Some (CDate m) /\
               bsm_maturity (bsm_option w2) = Some (CDate m))
      (for_each strike_grid (gbm_put_strike m) w1).2).
  { apply for_each_preserves.
    - intros k w2 [H1 H2].
      destruct (gbm_put_strike_object m k w2) as (_ & -> & ->). by split.
    - subst w1. world_fields. by rewrite set_object_same. }
  rewrite Hrun in Hkeep. destruct Hkeep as [Hvm Hbm].
  pose proof (for_each_last
    (fun k w2 => vo_strike (objects w2 euro_put_gbm) = Some (CFloat k) /\
                 bsm_strike (bsm_option w2) = Some (CFloat k))
    (gbm_put_strike m)) as Hlast.
  destruct (Hlast) with (2 := Hrun) (x := of_Q 120) as [Hvk Hbk];
    [|reflexivity|done].
  intros k w2 w3 u' Hk. split.
  - pose proof (gbm_put_strike_object m k w2) as (H & _). by rewrite Hk in H.
  - by apply (gbm_put_strike_bsm m k w2 w3 u').
Qed.

Lemma gbm_call_maturity_end m w w' u :
  gbm_call_maturity m w = (Returned u, w') ->
  vo_strike (objects w' euro_call_gbm) = Some (CFloat (of_Q 120)) /\
  vo_maturity (objects w' euro_call_gbm) = Some (CDate m) /\
  bsm_strike (bsm_option w') = Some (CFloat (of_Q 120)) /\
  bsm_maturity (bsm_option w') = Some (CDate m).
Proof.
  rewrite gbm_call_maturity_start. intros Hrun.
  set (w1 := World _ _ _ _ _) in Hrun.
  assert (Hvm :
    (fun w2 => vo_maturity (objects w2 euro_call_gbm) = Some (CDate m))
      (for_each strike_grid (gbm_call_strike m) w1).2).
  { apply for_each_preserves.
    - intros k w2 H1.
      by destruct (gbm_call_strike_object m k w2) as (_ & ->).
    - subst w1. world_fields. by rewrite set_object_same. }
  rewrite Hrun in Hvm. cbn [snd] in Hvm.
  pose proof (for_each_last
    (fun k w2 => vo_strike (objects w2 euro_call_gbm) = Some (CFloat k) /\
                 bsm_strike (bsm_option w2) = Some (CFloat k) /\
                 bsm_maturity (bsm_option w2) = Some (CDate m))
    (gbm_call_strike m)) as Hlast.
  destruct (Hlast) with (2 := Hrun) (x := of_Q 120) as (Hvk & Hbk & Hbm);
    [|reflexivity|done].
  intros k w2 w3 u' Hk. split.
  - pose proof (gbm_call_strike_object m k w2) as (H & _). by rewrite Hk in H.
  - by apply (gbm_call_strike_bsm m k w2 w3 u').
Qed.

Lemma gbm_put_benchmark_start w :
  gbm_put_benchmark w =
    for_each maturity_grid gbm_put_maturity
      (World (me_option w) (objects w) (bsm_option w) (engine w)
             (stdout w ++ [header])).
Proof. reflexivity. Qed.

Lemma gbm_call_benchmark_start w :
  gbm_call_benchmark w =
    for_each maturity_grid gbm_call_maturity
      (World (me_option w) (objects w) (bsm_option w) (engine w)
             (stdout w ++ [header])).
Proof. reflexivity. Qed.

(** X4.  When one of the two geometric Brownian motion cells returns,
    its valuation object and the shared [bsm_option] are both left at the
    last grid point, strike 120 and maturity 2015-07-31, the rest of the
    two objects being as before. *)
Theorem gbm_objects_left_at_last_point w w' u :
  (gbm_put_benchmark w = (Returned u, w') ->
   objects w' euro_put_gbm
     = object_at (objects w euro_put_gbm) (Date 2015 7 31, of_Q 120) /\
   bsm_option w' = bsm_at (bsm_option w) (Date 2015 7 31, of_Q 120)) /\
  (gbm_call_benchmark w = (Returned u, w') ->
   objects w' euro_call_gbm
     = object_at (objects w euro_call_gbm) (Date 2015 7 31, of_Q 120) /\
   bsm_option w' = bsm_at (bsm_option w) (Date 2015 7 31, of_Q 120)).
Proof.
  split; intros Hrun.
  - pose proof (gbm_put_benchmark_keeps w) as Hframe.
    rewrite Hrun in Hframe. cbn [snd] in Hframe.
    destruct Hframe as (_ & _ & Hn & Hu & Hp & Hbn & Hbe).
    assert (Hend : forall m, last maturity_grid = Some m ->
              vo_strike (objects w' euro_put_gbm) = Some (CFloat (of_Q 120)) /\
              vo_maturity (objects w' euro_put_gbm) = Some (CDate m) /\
              bsm_strike (bsm_option w') = Some (CFloat (of_Q 120)) /\
              bsm_maturity (bsm_option w') = Some (CDate m)).
    { intros m Hm. rewrite gbm_put_benchmark_start in Hrun.
      refine (for_each_last
                (fun m w2 =>
                   vo_strike (objects w2 euro_put_gbm)
                     = Some (CFloat (of_Q 120)) /\
                   vo_maturity (objects w2 euro_put_gbm) = Some (CDate m) /\
                   bsm_strike (bsm_option w2) = Some (CFloat (of_Q 120)) /\
                   bsm_maturity (bsm_option w2) = Some (CDate m))
                gbm_put_maturity _ _ _ _ _ _ Hrun Hm).
      intros m' w1 w2 u'. apply gbm_put_maturity_end. }
    destruct (Hend _ eq_refl) as (Hvk & Hvm & Hbk & Hbm).
    split; [by apply object_at_intro | by apply bsm_at_intro].
  - pose proof (gbm_call_benchmark_keeps w) as Hframe.
    rewrite Hrun in Hframe. cbn [snd] in Hframe.
    destruct Hframe as (_ & _ & Hn & Hu & Hp & Hbn & Hbe).
    assert (Hend : forall m, last maturity_grid = Some m ->
              vo_strike (objects w' euro_call_gbm) = Some (CFloat (of_Q 120)) /\
              vo_maturity (objects w' euro_call_gbm) = Some (CDate m) /\
              bsm_strike (bsm_option w') = Some (CFloat (of_Q 120)) /\
              bsm_maturity (bsm_option w') = Some (CDate m)).
    { intros m Hm. rewrite gbm_call_benchmark_start in Hrun.
      refine (for_each_last
                (fun m w2 =>
                   vo_strike (objects w2 euro_call_gbm)
                     = Some (CFloat (of_Q 120)) /\
                   vo_maturity (objects w2 euro_call_gbm) = Some (CDate m) /\
                   bsm_strike (bsm_option w2) = Some (CFloat (of_Q 120)) /\
                   bsm_maturity (bsm_option w2) = Some (CDate m))
                gbm_call_maturity _ _ _ _ _ _ Hrun Hm).
      intros m' w1 w2 u'. apply gbm_call_maturity_end. }
    destruct (Hend _ eq_refl) as (Hvk & Hvm & Hbk & Hbm).
    split; [by apply object_at_intro | by apply bsm_at_intro].
Qed.

(* =================================================================== *)
(** * What a failed run leaves behind *)
(* =================================================================== *)















(* =================================================================== *)
(** * From run to run *)
(* =================================================================== *)

(** X6.  Once a call of [valuation_benchmarking] has returned,
    [me_option] has settled: whatever cells run afterwards and return,
    with whatever objects and pricing functions, [me_option] stays as that
    call left it. *)
Theorem me_option_settles x f w w' u :
  valuation_benchmarking x f w = (Returned u, w') ->
  forall cs w'' u',
    for_each cs run_cell w' = (Returned u', w'') ->
    me_option w'' = me_option w'.
Proof.
  intros Hrun cs w'' u' Hcs.
  rewrite (cells_me_option cs w' w'' u' Hcs).
  destruct (benchmarking_among cs); [|reflexivity].
  destruct (valuation_benchmarking_final_env x f w w' u Hrun) as (_ & _ & ->).
  apply env_at_twice.
Qed.

(* =================================================================== *)
(** * One simulation per row *)
(* =================================================================== *)

Lemma for_each_calls {A} count (body : A -> M unit) :
  (forall x w, calls_match_lines count w (body x w)) ->
  forall xs w, calls_match_lines count w (for_each xs body w).
Proof.
  intros Hbody. induction xs as [|y xs IH]; intros w.
  - unfold calls_match_lines. simpl. lia.
  - rewrite for_each_cons. specialize (Hbody y w).
    destruct (body y w) as [[[]|err] w1]; [|exact Hbody].
    specialize (IH w1). unfold calls_match_lines in *. simpl in *.
    destruct (for_each xs body w1) as [[[]|err] w2]; simpl in *; lia.
Qed.

Section Calls.
Variable count : engine_state -> nat.
Hypothesis count_present_value :
  forall e o, count (present_value e o).2 = S (count e).
Hypothesis count_update : forall e o, count (updated e o) = count e.

Lemma benchmark_strike_calls x f m k w :
  calls_match_lines count w (benchmark_strike x f m k w).
Proof.
  rewrite benchmark_strike_effect. cbv zeta.
  pose proof (count_present_value
                (updated (engine w) (update_strike k (objects w x)))
                (update_strike k (objects w x))) as Hc.
  rewrite count_update in Hc.
  destruct (present_value _ _) as [[mcs|err] e']; simpl in Hc;
    [destruct (f _)|]; unfold calls_match_lines; simpl;
    rewrite ?length_app; simpl; lia.
Qed.

Lemma gbm_put_strike_calls m k w :
  calls_match_lines count w (gbm_put_strike m k w).
Proof.
  rewrite gbm_put_strike_effect. cbv zeta.
  pose proof (count_present_value
                (updated (engine w)
                   (update_strike k (objects w euro_put_gbm)))
                (update_strike k (objects w euro_put_gbm))) as Hc.
  rewrite count_update in Hc.
  destruct (present_value _ _) as [[mcs|err] e']; simpl in Hc;
    [destruct (put_value _)|]; unfold calls_match_lines; simpl;
    rewrite ?length_app; simpl; lia.
Qed.

Lemma gbm_call_strike_calls m k w :
  calls_match_lines count w (gbm_call_strike m k w).
Proof.
  rewrite gbm_call_strike_effect. cbv zeta.
  pose proof (count_present_value
                (updated (engine w)
                   (update_strike k (objects w euro_call_gbm)))
                (update_strike k (objects w euro_call_gbm))) as Hc.
  rewrite count_update in Hc.
  destruct (present_value _ _) as [[mcs|err] e']; simpl in Hc;
    [destruct (call_value _)|]; unfold calls_match_lines; simpl;
    rewrite ?length_app; simpl; lia.
Qed.

(** The statements before the inner loop make no call and print
    nothing. *)
Lemma calls_after_start count' w w1 res :
  count' (engine w1) = count' (engine w) -> stdout w1 = stdout w ->
  calls_match_lines count' w1 res -> calls_match_lines count' w res.
Proof. unfold calls_match_lines. by intros -> ->. Qed.

Lemma header_calls count' (body : date -> M unit) w :
  (forall m w1, calls_match_lines count' w1 (body m w1)) ->
  let res := for_each maturity_grid body
               (World (me_option w) (objects w) (bsm_option w) (engine w)
                      (stdout w ++ [header])) in
  (count' (engine res.2) + length (stdout w) + 1)%nat =
  (count' (engine w) + length (stdout res.2)
   + match res.1 with Returned _ => 0 | Raised _ => 1 end)%nat.
Proof.
  intros Hbody res.
  pose proof (for_each_calls count' body Hbody maturity_grid
                (World (me_option w) (objects w) (bsm_option w) (engine w)
                       (stdout w ++ [header]))) as H.
  fold res in H. unfold calls_match_lines in H.
  cbn [engine stdout] in H.
  rewrite length_app in H. simpl in H. lia.
Qed.

Lemma benchmark_run_calls c b w :
  benchmark_run c b ->
  (count (engine (c w).2) + length (stdout w) + 1)%nat =
  (count (engine w) + length (stdout (c w).2)
   + match (c w).1 with Returned _ => 0 | Raised _ => 1 end)%nat.
Proof.
  intros [ | |x f].
  - rewrite gbm_put_benchmark_start. apply header_calls.
    intros m w1. rewrite gbm_put_maturity_start.
    eapply calls_after_start; [| |apply for_each_calls;
                                   apply gbm_put_strike_calls].
    + world_fields. apply count_update.
    + reflexivity.
  - rewrite gbm_call_benchmark_start. apply header_calls.
    intros m w1. rewrite gbm_call_maturity_start.
    eapply calls_after_start; [| |apply for_each_calls;
                                   apply gbm_call_strike_calls].
    + world_fields. apply count_update.
    + reflexivity.
  - rewrite valuation_benchmarking_start. apply header_calls.
    intros m w1. rewrite benchmark_maturity_start.
    eapply calls_after_start; [| |apply for_each_calls;
                                   apply benchmark_strike_calls].
    + world_fields. apply count_update.
    + reflexivity.
Qed.
End Calls.

(** X7.  A benchmark calls [present_value] once for every row it
    prints, and once more if it raises: whatever counts the calls of the
    engine (it goes up by one with every [present_value], and an
    [update] leaves it) has gone up by the number of rows when the run
    returns, 15, and by the number of rows plus one when it raises.  No
    grid point is simulated twice, and none after the failing one. *)
Theorem one_simulation_per_row (count : engine_state -> nat) c b w :
  (forall e o, count (present_value e o).2 = S (count e)) ->
  (forall e o, count (updated e o) = count e) ->
  benchmark_run c b ->
  exists rows,
    stdout (c w).2 = stdout w ++ header :: rows /\
    match (c w).1 with
    | Returned _ =>
        length rows = 15%nat /\
        count (engine (c w).2) = (count (engine w) + 15)%nat
    | Raised _ =>
        (length rows < 15)%nat /\
        count (engine (c w).2) = (count (engine w) + length rows + 1)%nat
    end.
Proof.
  intros Hpv Hupd Hc.
  pose proof (benchmark_run_calls count Hpv Hupd c b w Hc) as Hcalls.
  destruct (c w) as [o w'] eqn:Hrun.
  destruct (benchmark_run_result c b w o w' Hc Hrun) as (rows & Hout & Hres).
  exists rows. split; [exact Hout|]. simpl in *.
  rewrite Hout, length_app in Hcalls. simpl in Hcalls.
  destruct o as [u|err].
  - pose proof (run_result_returned_length _ _ _ _ Hres) as Hlen.
    change (length grid) with 15%nat in Hlen. split; [exact Hlen|]. lia.
  - pose proof (run_result_raised_length _ _ _ _ Hres) as Hlen.
    change (length grid) with 15%nat in Hlen. split; [exact Hlen|]. lia.
Qed.

(* =================================================================== *)
(** * The cells of the notebook, one after the other *)
(* =================================================================== *)

Lemma present_value_cell x w w' u :
  run_cell (PresentValue x) w = (Returned u, w') ->
  me_option w' = me_option w /\ objects w' = objects w /\
  bsm_option w' = bsm_option w /\ stdout w' = stdout w.
Proof.
  simpl. rewrite bind_run. unfold present_value_of.
  destruct (present_value (engine w) (objects w x)) as [[v|err] e'];
    [|discriminate].
  unfold mret, M_ret. by intros [= _ <-].
Qed.

Lemma run_cell_table c w w' u :
  run_cell c w = (Returned u, w') ->
  match target c with
  | Some _ => exists rows,
      stdout w' = stdout w ++ header :: rows /\ length rows = 15%nat
  | None => stdout w' = stdout w
  end.
Proof.
  intros Hrun.
  assert (Hb : forall c' b, benchmark_run c' b -> c' w = (Returned u, w') ->
               exists rows, stdout w' = stdout w ++ header :: rows /\
                            length rows = 15%nat).
  { intros c' b Hc' Hrun'.
    destruct (benchmark_run_result c' b w _ w' Hc' Hrun')
      as (rows & Hout & Hres).
    exists rows. split; [exact Hout|].
    apply (run_result_returned_length _ _ _ _ Hres). }
  destruct c as [x| | |x f]; simpl in *.
  - by apply (present_value_cell x w w' u).
  - by apply (Hb _ _ gbm_put_run).
  - by apply (Hb _ _ gbm_call_run).
  - by apply (Hb _ _ (fourier_run x (dx f))).
Qed.

Lemma cells_tables cs : forall w w' u,
  for_each cs run_cell w = (Returned u, w') ->
  exists tables,
    stdout w' = stdout w ++ concat tables /\
    length tables = length (omap target cs) /\
    Forall (fun t => exists rows, t = header :: rows /\ length rows = 15%nat)
           tables.
Proof.
  induction cs as [|c cs IH]; intros w w' u Hrun.
  - rewrite for_each_nil in Hrun. simplify_eq. exists [].
    simpl. by rewrite app_nil_r.
  - rewrite for_each_cons in Hrun.
    destruct (run_cell c w) as [[[]|err] w1] eqn:Hc; [|discriminate].
    destruct (IH w1 w' u Hrun) as (tables & Hout & Hlen & Hall).
    pose proof (run_cell_table c w w1 tt Hc) as Hone.
    simpl. destruct (target c) as [x|].
    + destruct Hone as (rows & Hout1 & Hrows).
      exists ((header :: rows) :: tables). split; [|split].
      * rewrite Hout, Hout1. simpl. by rewrite <- app_assoc.
      * simpl. by rewrite Hlen.
      * constructor; [by exists rows | exact Hall].
    + exists tables. by rewrite Hout, Hone.
Qed.

Lemma tables_length (tables : list (list line)) :
  Forall (fun t => exists rows, t = header :: rows /\ length rows = 15%nat)
         tables ->
  length (concat tables) = (16 * length tables)%nat.
Proof.
  induction 1 as [|t tables (rows & -> & Hrows) _ IH]; [reflexivity|].
  simpl concat. simpl length. rewrite length_app, IH, Hrows. lia.
Qed.

(** X8.  When all its cells return, the code of the notebook has
    printed eight tables, one per benchmark cell and nothing in between:
    each is the header followed by 15 rows, 128 lines in all; the eight
    [present_value()] cells write nothing to the output (their value is
    the result of the cell).  The timing lines of the [%time] magics are
    IPython's, not the code's, and are not counted. *)
Theorem notebook_prints_eight_tables e w u :
  for_each notebook_cells run_cell (initial_world e) = (Returned u, w) ->
  length (stdout w) = 128%nat /\
  exists tables,
    stdout w = concat tables /\
    length tables = 8%nat /\
    Forall (fun t => exists rows, t = header :: rows /\ length rows = 15%nat)
           tables.
Proof.
  intros Hrun.
  destruct (cells_tables _ _ _ _ Hrun) as (tables & Hout & Hlen & Hall).
  change (stdout (initial_world e)) with (@nil line) in Hout.
  simpl in Hout.
  change (length (omap target notebook_cells)) with 8%nat in Hlen.
  split; [|by exists tables].
  rewrite Hout, (tables_length tables Hall), Hlen. reflexivity.
Qed.

Lemma run_cell_objects c w w' u y :
  run_cell c w = (Returned u, w') ->
  target c <> Some y -> objects w' y = objects w y.
Proof.
  destruct c as [x| | |x f]; simpl; intros Hrun Hy.
  - by destruct (present_value_cell x w w' u Hrun) as (_ & -> & _).
  - pose proof (gbm_put_benchmark_keeps w) as (_ & H & _).
    rewrite Hrun in H. apply H. congruence.
  - pose proof (gbm_call_benchmark_keeps w) as (_ & H & _).
    rewrite Hrun in H. apply H. congruence.
  - pose proof (valuation_benchmarking_keeps x (dx f) w) as (_ & H & _).
    rewrite Hrun in H. apply H. congruence.
Qed.

Lemma cells_objects y cs : forall w w' u,
  for_each cs run_cell w = (Returned u, w') ->
  Forall (fun c => target c <> Some y) cs ->
  objects w' y = objects w y.
Proof.
  induction cs as [|c cs IH]; intros w w' u Hrun Hall.
  - rewrite for_each_nil in Hrun. by simplify_eq.
  - rewrite for_each_cons in Hrun.
    destruct (run_cell c w) as [[[]|err] w1] eqn:Hc; [|discriminate].
    apply Forall_cons in Hall as [Hc1 Hall].
    rewrite (IH w1 w' u Hrun Hall).
    by apply (run_cell_objects c w w1 tt).
Qed.

(** X9.  Every [present_value()] cell of the notebook prices the option
    its object was constructed for, strike 100 and maturity 2015-12-31:
    none of the cells before it has touched that object.  From the
    seventh cell on this is no longer the option [me_option] describes,
    which by then has the strike 120. *)
Theorem present_value_cells_price_constructed n x e w u :
  notebook_cells !! n = Some (PresentValue x) ->
  for_each (take n notebook_cells) run_cell (initial_world e)
    = (Returned u, w) ->
  objects w x = construct x /\
  (present_value_of x w).1 = (present_value (engine w) (construct x)).1 /\
  vo_strike (construct x) = Some (CFloat (of_Q 100)) /\
  vo_maturity (construct x) = Some (CDate (Date 2015 12 31)) /\
  ((5 < n)%nat ->
   get_constant "strike" (me_option w) = Some (CFloat (of_Q 120))).
Proof.
  intros Hn Hrun.
  assert (Ho : objects w x = construct x).
  { rewrite (cells_objects x _ _ _ _ Hrun); [reflexivity|].
    do 16 (destruct n as [|n];
           [simpl in Hn; simplify_eq; simpl;
            repeat (constructor; [discriminate|]); constructor|]).
    by rewrite lookup_ge_None_2 in Hn by (simpl; lia). }
  split; [exact Ho|]. split.
  { unfold present_value_of. rewrite Ho. by destruct (present_value _ _). }
  split; [by destruct x|]. split; [by destruct x|].
  intros H5. rewrite (notebook_me_option n e w u Hrun).
  destruct (n <=? 5)%nat eqn:Hle; [apply Nat.leb_le in Hle; lia|].
  reflexivity.
Qed.

(* =================================================================== *)
(** * The table, when the estimates do not depend on the engine state *)
(* =================================================================== *)

Section Seeded.
Variable v : valuation_object -> outcome exn float64.
Hypothesis estimate : forall e o, (present_value e o).1 = v o.

Lemma priced_at_expected b mk l :
  priced_at b mk l ->
  exists mcs fou,
    v (object_at (priced b) mk) = Returned mcs /\
    reference b mk = Returned fou /\
    l = row (rel_decimals b) (T_at (anchor b) mk.1) mk.2 mcs fou.
Proof.
  intros (e & e' & mcs & fou & Hpv & Hf & Hl).
  exists mcs, fou. split; [|by split].
  by rewrite <- (estimate e), Hpv.
Qed.

Lemma fails_at_expected b mk err :
  fails_at b mk err ->
  v (object_at (priced b) mk) = Raised err \/
  exists mcs, v (object_at (priced b) mk) = Returned mcs /\
              reference b mk = Raised err.
Proof.
  intros [(e & e' & Hpv)|(e & e' & mcs & Hpv & Hf)].
  - left. by rewrite <- (estimate e), Hpv.
  - right. exists mcs. split; [|exact Hf]. by rewrite <- (estimate e), Hpv.
Qed.

Lemma run_result_expected b g rows o :
  run_result b g rows o ->
  expected_rows v b g = (rows, match o with
                               | Returned _ => Returned tt
                               | Raised err => Raised err
                               end).
Proof.
  intros (done & rest & -> & Hrows & Ho).
  induction Hrows as [|mk l done rows Hl Hrows IH]; simpl.
  - destruct o as [u|err].
    + by subst rest.
    + destruct Ho as (mk & rest' & -> & Hf). simpl.
      destruct (fails_at_expected b mk err Hf) as [->|(mcs & -> & ->)];
        reflexivity.
  - destruct (priced_at_expected b mk l Hl) as (mcs & fou & -> & -> & ->).
    by rewrite IH.
Qed.

Lemma expected_rows_ext b1 b2 g :
  (forall mk, object_at (priced b1) mk = object_at (priced b2) mk) ->
  (forall mk, reference b1 mk = reference b2 mk) ->
  anchor b1 = anchor b2 -> rel_decimals b1 = rel_decimals b2 ->
  expected_rows v b1 g = expected_rows v b2 g.
Proof.
  intros Ho Hr Ha Hd. induction g as [|mk g IH]; [reflexivity|].
  simpl. by rewrite Ho, Hr, Ha, Hd, IH.
Qed.

Lemma benchmark_run_expected c b w :
  benchmark_run c b ->
  (c w).1 = (expected_rows v (b w) grid).2 /\
  stdout (c w).2 = stdout w ++ header :: (expected_rows v (b w) grid).1.
Proof.
  intros Hc. destruct (c w) as [o w'] eqn:Hrun.
  destruct (benchmark_run_result c b w o w' Hc Hrun) as (rows & Hout & Hres).
  rewrite (run_result_expected _ _ _ _ Hres). simpl.
  split; [by destruct o as [[]|err] | exact Hout].
Qed.
End Seeded.

(** X14.  With an engine whose estimate depends on the valuation object
    only, not on the state the engine is in (a fixed seed), what a
    benchmark prints and how it ends is a function of the grid: the
    header, then for each grid point in order the row of the estimate for
    the object at that point and of the reference price there, up to the
    first point one of whose two prices is not obtained; the run raises
    the error of that point, and returns if there is none. *)
Theorem table_of_seeded_engine (v : valuation_object -> outcome exn float64)
    c b w :
  (forall e o, (present_value e o).1 = v o) ->
  benchmark_run c b ->
  (c w).1 = (expected_rows v (b w) grid).2 /\
  stdout (c w).2 = stdout w ++ header :: (expected_rows v (b w) grid).1.
Proof.
  intros Hv Hc. destruct (c w) as [o w'] eqn:Hrun.
  destruct (benchmark_run_result c b w o w' Hc Hrun)
    as (rows & Hout & done & rest & -> & Hrows & Ho).
  assert (Hexp : expected_rows v (b w) (done ++ rest)
                 = (rows, match o with
                          | Returned _ => Returned tt
                          | Raised err => Raised err
                          end)).
  { clear Hout Hrun. induction Hrows as [|mk l done rows Hl Hrows IH]; simpl.
    - destruct o as [u|err]; [by subst rest|].
      destruct Ho as (mk & rest' & -> & Hf). simpl.
      destruct (fails_at_expected v Hv _ mk err Hf) as [->|(mcs & -> & ->)];
        reflexivity.
    - destruct (priced_at_expected v Hv _ mk l Hl)
        as (mcs & fou & -> & -> & ->).
      by rewrite IH. }
  rewrite Hexp. simpl. split; [by destruct o as [[]|err] | exact Hout].
Qed.

(** ** Cells change strikes and maturities only *)

Lemma same_object_intro o o' :
  vo_name o' = vo_name o -> underlying o' = underlying o ->
  payoff_func o' = payoff_func o -> same_object o' o.
Proof.
  destruct o, o'; simpl. intros -> -> -> mk. reflexivity.
Qed.

Lemma same_env_intro env env' :
  name env' = name env -> pricing_date env' = pricing_date env ->
  curves env' = curves env ->
  (forall key, key <> "strike" -> key <> "maturity" ->
     get_constant key env' = get_constant key env) ->
  same_env env' env.
Proof.
  destruct env as [n d cs cu], env' as [n' d' cs' cu']; simpl.
  intros -> -> -> Hcs. split; [reflexivity|]. intros mk.
  unfold env_at, add_constant; simpl. f_equal.
  apply map_eq. intros key.
  destruct (decide (key = "strike")) as [->|Hk];
    [by rewrite !lookup_insert_eq|].
  rewrite !(lookup_insert_ne _ "strike") by done.
  destruct (decide (key = "maturity")) as [->|Hm];
    [by rewrite !lookup_insert_eq|].
  rewrite !(lookup_insert_ne _ "maturity") by done.
  by apply Hcs.
Qed.

Lemma same_options_refl w : same_options w w.
Proof. split; [apply same_env_refl | intros y; apply same_object_refl]. Qed.

Lemma same_options_trans w1 w2 w3 :
  same_options w1 w2 -> same_options w2 w3 -> same_options w1 w3.
Proof.
  intros [[Hd1 He1] Ho1] [[Hd2 He2] Ho2]. split; [split|].
  - by rewrite Hd2.
  - intros mk. by rewrite He2.
  - intros y mk. rewrite (Ho2 y mk). apply Ho1.
Qed.

Lemma benchmarking_frame_options x w w' :
  benchmarking_frame x w w' -> same_options w w'.
Proof.
  intros (_ & Hy & Hn & Hu & Hp & Hen & Hed & Hec & Hek). split.
  - by apply same_env_intro.
  - intros y. destruct (decide (y = x)) as [->|Hne].
    + by apply same_object_intro.
    + rewrite Hy by done. apply same_object_refl.
Qed.

Lemma gbm_frame_options x w w' : gbm_frame x w w' -> same_options w w'.
Proof.
  intros (He & Hy & Hn & Hu & Hp & _). split.
  - rewrite He. apply same_env_refl.
  - intros y. destruct (decide (y = x)) as [->|Hne].
    + by apply same_object_intro.
    + rewrite Hy by done. apply same_object_refl.
Qed.

Lemma run_cell_same_options c w : same_options w (run_cell c w).2.
Proof.
  destruct c as [x| | |x f]; simpl.
  - rewrite bind_run. unfold present_value_of.
    destruct (present_value _ _) as [[r|err] e'];
      (split; [apply same_env_refl | intros y; apply same_object_refl]).
  - eapply gbm_frame_options, gbm_put_benchmark_keeps.
  - eapply gbm_frame_options, gbm_call_benchmark_keeps.
  - eapply benchmarking_frame_options, valuation_benchmarking_keeps.
Qed.

Lemma cells_same_options cs w :
  same_options w (for_each cs run_cell w).2.
Proof.
  apply (for_each_preserves (same_options w)); [|apply same_options_refl].
  intros c w1 H1. eapply same_options_trans; [exact H1|].
  apply run_cell_same_options.
Qed.

(** X15.  With such an engine a benchmark can be repeated: a call of
    [valuation_benchmarking] made after one that returned, for the same
    object and pricing function and after whatever other cells returned
    in between, returns too and prints the same table again, although
    object and environment were left at the last grid point. *)
Theorem seeded_benchmark_repeats
    (v : valuation_object -> outcome exn float64) x f w w1 u :
  (forall e o, (present_value e o).1 = v o) ->
  valuation_benchmarking x f w = (Returned u, w1) ->
  forall cs w2 u',
    for_each cs run_cell w1 = (Returned u', w2) ->
    exists rows,
      length rows = 15%nat /\
      stdout w1 = stdout w ++ header :: rows /\
      (valuation_benchmarking x f w2).1 = Returned tt /\
      stdout (valuation_benchmarking x f w2).2
        = stdout w2 ++ header :: rows.
Proof.
  intros Hv Hrun cs w2 u' Hcs.
  destruct (benchmark_run_expected v Hv _ _ w (fourier_run x f))
    as [Ho1 Hout1].
  destruct (benchmark_run_expected v Hv _ _ w2 (fourier_run x f))
    as [Ho2 Hout2].
  rewrite Hrun in Ho1, Hout1. cbn [fst snd] in Ho1, Hout1.
  assert (Hsame : same_options w w2).
  { eapply same_options_trans.
    - eapply benchmarking_frame_options.
      pose proof (valuation_benchmarking_keeps x f w) as H.
      rewrite Hrun in H. exact H.
    - pose proof (cells_same_options cs w1) as H.
      rewrite Hcs in H. exact H. }
  destruct Hsame as [[Hd He] Hobj].
  assert (Hext : expected_rows v (fourier_benchmark x f w2) grid
                 = expected_rows v (fourier_benchmark x f w) grid).
  { apply expected_rows_ext; simpl; [apply Hobj| |exact Hd|reflexivity].
    intros mk. by rewrite He. }
  rewrite Hext in Ho2, Hout2.
  exists (expected_rows v (fourier_benchmark x f w) grid).1.
  split; [|split; [exact Hout1|split; [by rewrite Ho2, <- Ho1; destruct u
                                      | exact Hout2]]].
  destruct (benchmark_run_result _ _ w _ w1 (fourier_run x f) Hrun)
    as (rows & Hout & Hres).
  rewrite Hout in Hout1. apply app_inv_head in Hout1.
  assert (Hr : rows = (expected_rows v (fourier_benchmark x f w) grid).1)
    by congruence.
  rewrite <- Hr. apply (run_result_returned_length _ _ _ _ Hres).
Qed.

End Notebook.

Arguments World {engine_state} _ _ _ _ _.
Arguments me_option {engine_state} _.
Arguments objects {engine_state} _ _.
Arguments bsm_option {engine_state} _.
Arguments engine {engine_state} _.
Arguments stdout {engine_state} _.
Arguments initial_world {engine_state} e.
Arguments valuation_benchmarking {exn engine_state} present_value updated
  valuation_object fourier _.
Arguments gbm_put_benchmark {exn engine_state} present_value updated
  put_value _.
Arguments gbm_call_benchmark {exn engine_state} present_value updated
  call_value _.
Arguments run_cell {exn engine_state} present_value updated put_value
  call_value dx c _.
Arguments fourier_benchmark {exn engine_state} x f w.
Arguments bsm_put_benchmark {exn engine_state} put_value w.
Arguments bsm_call_benchmark {exn engine_state} call_value w.
Arguments benchmark_run {exn engine_state} present_value updated put_value
  call_value _ _.
Arguments priced_at {exn engine_state} present_value b mk l.
Arguments fails_at {exn engine_state} present_value b mk err.
Arguments reference {exn} b mk.
Arguments priced {exn} b.
Arguments M_bind {exn engine_state}.
Arguments expected_rows {exn} v b g.

(* ===================================================================== *)
(** * Reference prices *)
(* ===================================================================== *)

Section TwoRuns.
Context {exn E1 E2 : Type}.
Variable pv1 : E1 -> valuation_object -> outcome exn float64 * E1.
Variable pv2 : E2 -> valuation_object -> outcome exn float64 * E2.
Variable upd1 : E1 -> valuation_object -> E1.
Variable upd2 : E2 -> valuation_object -> E2.


End TwoRuns.

Section ReferenceSource.
Context {exn E : Type}.
Variable present_value : E -> valuation_object -> outcome exn float64 * E.
Variable updated : E -> valuation_object -> E.
Variable put_value : bsm_object -> outcome exn float64.
Variable call_value : bsm_object -> outcome exn float64.


End ReferenceSource.

(* ===================================================================== *)
(** * Put-call parity of the pricer *)
(* ===================================================================== *)

(** C1.  For every model and every valid spot, strike, rate, time to
    maturity and model parameters, the pricer returns the put and the
    call whenever the integration succeeds, and then
    Call - Put = S0 - K e^(-rT): the call is the put plus this amount, so
    the two sides differ by nothing, and a fortiori by at most 1e-6.  When
    the integration fails, the put and the call fail with the same
    error. *)
Theorem put_call_parity
    (integrate_put : FourierPricer.model_parameters ->
                     FourierPricer.market_data -> outcome dx_error R)
    (p : FourierPricer.model_parameters) (d : FourierPricer.market_data) :
  FourierPricer.valid p d ->
  match FourierPricer.price integrate_put FourierPricer.put p d,
        FourierPricer.price integrate_put FourierPricer.call p d with
  | Returned put_price, Returned call_price =>
      integrate_put p d = Returned put_price /\
      (call_price - put_price
       = FourierPricer.spot d
         - FourierPricer.strike d
           * exp (- FourierPricer.rate d * FourierPricer.horizon d))%R /\
      (Rabs (call_price - put_price
             - (FourierPricer.spot d
                - FourierPricer.strike d
                  * exp (- FourierPricer.rate d * FourierPricer.horizon d)))
       <= 1 / 1000000)%R
  | Raised e1, Raised e2 => e1 = e2 /\ integrate_put p d = Raised e1
  | _, _ => False
  end.
Proof.
  intros Hv. unfold FourierPricer.price.
  destruct (FourierPricer.valid_dec p d) as [_|Hn]; [|contradiction].
  destruct (integrate_put p d) as [x|e]; [|by split].
  split; [reflexivity|].
  match goal with
  | |- ?a = ?b /\ _ => assert (Heq : a = b) by ring
  end.
  split; [exact Heq|].
  rewrite Heq. unfold Rminus at 1. rewrite Rplus_opp_r, Rabs_R0. lra.
Qed.

Lemma put_call_parity_witness :
  let integrate := fun (_ : FourierPricer.model_parameters)
                       (_ : FourierPricer.market_data) =>
                     Returned (E:=dx_error) (3813 / 1000)%R in
  let p := FourierPricer.GeometricBrownianMotion (2 / 10)%R in
  let d := FourierPricer.MarketData 100 100 (1 / 100) (89 / 365) in
  FourierPricer.valid p d /\
  match FourierPricer.price integrate FourierPricer.put p d,
        FourierPricer.price integrate FourierPricer.call p d with
  | Returned put_price, Returned call_price =>
      (call_price - put_price
       = FourierPricer.spot d
         - FourierPricer.strike d
           * exp (- FourierPricer.rate d * FourierPricer.horizon d))%R
  | _, _ => False
  end.
Proof.
  intros integrate p d.
  assert (Hv : FourierPricer.valid p d).
  { unfold FourierPricer.valid. simpl. lra. }
  split; [exact Hv|].
  pose proof (put_call_parity integrate p d Hv) as H.
  destruct (FourierPricer.price integrate FourierPricer.put p d),
           (FourierPricer.price integrate FourierPricer.call p d);
    try contradiction.
  - apply H.
  - destruct H as [_ H]. discriminate H.
Defined.

(* ===================================================================== *)
(** * The recorded tables *)
(* ===================================================================== *)


(** In every recorded table the printed difference is the difference of
    the two printed prices, up to the rounding to four decimals. *)
Lemma recorded_differences_consistent :
  Forall (fun t => all_rows dif_consistent t = true)
         [recorded_gbm_put; recorded_gbm_call; recorded_M76_put;
          recorded_M76_call; recorded_H93_put; recorded_H93_call;
          recorded_B96_put; recorded_B96_call].
Proof.
  repeat (apply List.Forall_cons; [vm_compute; reflexivity|]).
  apply List.Forall_nil.
Qed.

(* ===================================================================== *)
(** * Runs with the sample suppliers *)
(* ===================================================================== *)

Lemma sample_run_returns :
  valuation_benchmarking counting_engine engine_kept euro_put_jd strike_price
                         (initial_world 0%nat)
  = (Returned tt,
     (valuation_benchmarking counting_engine engine_kept euro_put_jd
                             strike_price (initial_world 0%nat)).2).
Proof.
  assert (H : (valuation_benchmarking counting_engine engine_kept euro_put_jd
                 strike_price (initial_world 0%nat)).1 = Returned tt)
    by (vm_compute; reflexivity).
  destruct (valuation_benchmarking counting_engine engine_kept euro_put_jd
              strike_price (initial_world 0%nat)) as [o w'].
  simpl in *. by subst.
Defined.

(** The table the sample run prints. *)
Lemma sample_run_prints :
  map render
      (stdout (valuation_benchmarking counting_engine engine_kept euro_put_jd
                 strike_price (initial_world 0%nat)).2) =
  ["   T  |  strike |     mcs |     fou |     dif |     rel";
   "0.244 |  80.000 | 80.0000 | 80.0000 |  0.0000 |   0.000 ";
   "0.244 |  90.000 | 91.0000 | 90.0000 |  1.0000 |   1.111 ";
   "0.244 | 100.000 | 102.0000 | 100.0000 |  2.0000 |   2.000 ";
   "0.244 | 110.000 | 113.0000 | 110.0000 |  3.0000 |   2.727 ";
   "0.244 | 120.000 | 124.0000 | 120.0000 |  4.0000 |   3.333 ";
   "0.411 |  80.000 | 85.0000 | 80.0000 |  5.0000 |   6.250 ";
   "0.411 |  90.000 | 96.0000 | 90.0000 |  6.0000 |   6.667 ";
   "0.411 | 100.000 | 107.0000 | 100.0000 |  7.0000 |   7.000 ";
   "0.411 | 110.000 | 118.0000 | 110.0000 |  8.0000 |   7.273 ";
   "0.411 | 120.000 | 129.0000 | 120.0000 |  9.0000 |   7.500 ";
   "0.578 |  80.000 | 90.0000 | 80.0000 | 10.0000 |  12.500 ";
   "0.578 |  90.000 | 101.0000 | 90.0000 | 11.0000 |  12.222 ";
   "0.578 | 100.000 | 112.0000 | 100.0000 | 12.0000 |  12.000 ";
   "0.578 | 110.000 | 123.0000 | 110.0000 | 13.0000 |  11.818 ";
   "0.578 | 120.000 | 134.0000 | 120.0000 | 14.0000 |  11.667 "]%string.
Proof. vm_compute. reflexivity. Qed.

Lemma one_row_per_grid_point_witness :
  let run := valuation_benchmarking counting_engine engine_kept euro_put_jd
                                    strike_price in
  let b := fourier_benchmark euro_put_jd strike_price in
  let w := initial_world 0%nat in
  benchmark_run counting_engine engine_kept bsm_strike_price bsm_strike_price
                run b /\
  exists rows done rest,
    stdout (run w).2 = stdout w ++ header :: rows /\
    grid = done ++ rest /\
    match (run w).1 with
    | Returned _ => rest = []
    | Raised _ => rest <> []
    end /\
    Forall2 (fun mk l =>
      exists e e' mcs fou p,
        counting_engine e (object_at (priced (b w)) mk) = (Returned mcs, e') /\
        reference (b w) mk = Returned fou /\
        (p = 2 \/ p = 3)%nat /\
        comparison_row (T_at (pricing_date (me_option w)) mk.1) mk.2
                       mcs fou p l) done rows.
Proof.
  intros run b w. split; [apply fourier_run|].
  apply (one_row_per_grid_point dx_error nat counting_engine engine_kept
           bsm_strike_price bsm_strike_price run b w).
  apply fourier_run.
Defined.


Lemma year_fraction_anchor_witness :
  let run := valuation_benchmarking counting_engine engine_kept euro_put_jd
                                    strike_price in
  let w := initial_world 0%nat in
  benchmark_run counting_engine engine_kept bsm_strike_price bsm_strike_price
                run (fourier_benchmark euro_put_jd strike_price) /\
  pricing_date (me_option (run w).2) = pricing_date (me_option w).
Proof.
  intros run w. split; [apply fourier_run|].
  apply (year_fraction_anchor dx_error nat counting_engine engine_kept
           bsm_strike_price bsm_strike_price run _ w
           (fourier_run _ _ _ _ _ _ _ _)).
Defined.

Lemma me_option_left_mutated_witness :
  let run := valuation_benchmarking counting_engine engine_kept euro_put_jd
                                    strike_price in
  let w := initial_world 0%nat in
  run w = (Returned tt, (run w).2) /\
  get_constant "strike" (me_option (run w).2) = Some (CFloat (of_Q 120)) /\
  get_constant "maturity" (me_option (run w).2)
    = Some (CDate (Date 2015 7 31)).
Proof.
  intros run w. split; [apply sample_run_returns|].
  pose proof (me_option_left_mutated dx_error nat counting_engine engine_kept
                euro_put_jd strike_price w (run w).2 tt sample_run_returns)
    as H.
  split; [apply H | apply H].
Defined.


(** C2, at a concrete run.  The simulation engine breaks down at the
    third grid point (first maturity, strike 100) and would price every
    other point: the run raises the engine's error there, and the output
    is the header and the rows of the two grid points before; there is no
    row for the failing point and none for the twelve points after it. *)
Lemma breaking_engine_ends_run :
  let res := valuation_benchmarking breaking_engine engine_kept euro_put_jd
                                    strike_price (initial_world 0%nat) in
  breaking_engine 2 (object_at (construct euro_put_jd)
                               (Date 2015 3 31, of_Q 100))
    = (Raised ExternalEngineError, 2%nat) /\
  breaking_engine 2 (object_at (construct euro_put_jd)
                               (Date 2015 3 31, of_Q 110))
    = (Returned (of_Q 112), 3%nat) /\
  res.1 = Raised ExternalEngineError /\
  map render (stdout res.2) =
  ["   T  |  strike |     mcs |     fou |     dif |     rel";
   "0.244 |  80.000 | 80.0000 | 80.0000 |  0.0000 |   0.000 ";
   "0.244 |  90.000 | 91.0000 | 90.0000 |  1.0000 |   1.111 "]%string /\
  (length (stdout res.2) < 1 + length grid)%nat.
Proof. vm_compute. repeat split; lia. Qed.

(* ===================================================================== *)
(** * Numbers and their printed form *)
(* ===================================================================== *)

(** The difference and the relative difference of two finite prices are
    exact. *)
Lemma fsub_finite a b :
  exists q, fsub (Finite a) (Finite b) = Finite q /\ (q == a - b)%Q.
Proof. eexists. split; [reflexivity|]. apply Qred_correct. Qed.

Lemma relative_difference_finite a b :
  ~ (b == 0)%Q ->
  exists q,
    fmul (fdiv (fsub (Finite a) (Finite b)) (Finite b)) (of_Z 100) = Finite q /\
    (q == (a - b) / b * 100)%Q.
Proof.
  intros Hb. unfold fsub, fdiv, of_Q.
  destruct (Qeq_bool b 0) eqn:E; [by apply Qeq_bool_iff in E|].
  eexists. split; [reflexivity|].
  rewrite !Qred_correct. reflexivity.
Qed.

(** A zero reference price gives no finite relative difference; the row
    is printed all the same. *)
Lemma relative_difference_zero x :
  fmul (fdiv x (Finite 0)) (of_Z 100) = NonFinite.
Proof. by destruct x. Qed.

Lemma string_length_app (s1 s2 : string) :
  String.length (s1 ++ s2) = (String.length s1 + String.length s2)%nat.
Proof. induction s1 as [|c s1 IH]; simpl; [reflexivity | by rewrite IH]. Qed.

Lemma decimals_length p n : String.length (decimals p n) = p.
Proof.
  revert n. induction p as [|p IH]; intros n; simpl; [reflexivity|].
  rewrite string_length_app, IH. simpl. lia.
Qed.

(** A conversion with [p > 0] decimals prints a decimal point followed by
    exactly [p] digits. *)
Lemma fixed_digits_decimals p q :
  (0 < p)%nat ->
  exists ip frac,
    fixed_digits p q = (ip ++ "." ++ frac)%string /\ String.length frac = p.
Proof.
  intros Hp. destruct p as [|p]; [lia|].
  unfold fixed_digits. eexists _, _. split; [reflexivity|].
  apply decimals_length.
Qed.

(* ===================================================================== *)
(** * More on the recorded tables *)
(* ===================================================================== *)

(** Every recorded table has the fifteen rows of the grid, in its order,
    with the year fractions 0.244, 0.411, 0.578 counted from the pricing
    date. *)
Lemma recorded_tables_follow_grid :
  Forall (fun t => follows_grid t = true)
         [recorded_gbm_put; recorded_gbm_call; recorded_M76_put;
          recorded_M76_call; recorded_H93_put; recorded_H93_call;
          recorded_B96_put; recorded_B96_call].
Proof.
  repeat (apply List.Forall_cons; [vm_compute; reflexivity|]).
  apply List.Forall_nil.
Qed.

(** X13.  In the recorded tables the reference price of the puts rises
    with the strike and that of the calls falls, maturity by maturity. *)
Lemma recorded_reference_monotone_in_strike :
  Forall (fun t => rising_in_strike t = true)
         [recorded_gbm_put; recorded_M76_put; recorded_H93_put;
          recorded_B96_put] /\
  Forall (fun t => falling_in_strike t = true)
         [recorded_gbm_call; recorded_M76_call; recorded_H93_call;
          recorded_B96_call].
Proof.
  split; repeat (apply List.Forall_cons; [vm_compute; reflexivity|]);
    apply List.Forall_nil.
Qed.

(** ** Parity in the recorded tables *)

Lemma round_down_le q : (round_down q <= q)%Q.
Proof.
  unfold round_down. apply Qle_shift_div_r; [reflexivity|]. apply Qfloor_le.
Qed.

Lemma round_up_ge q : (q <= round_up q)%Q.
Proof.
  unfold round_up. apply Qle_shift_div_l; [reflexivity|]. apply Qle_ceiling.
Qed.

Lemma round_down_nonneg q : (0 <= q)%Q -> (0 <= round_down q)%Q.
Proof.
  intros H. unfold round_down. apply Qle_shift_div_l; [reflexivity|].
  rewrite Qmult_0_l.
  change 0%Q with (inject_Z 0). rewrite <- Zle_Qle.
  change 0%Z with (Qfloor 0). apply Qfloor_resp_le.
  rewrite <- (Qmult_0_l (inject_Z (10 ^ 18))).
  apply Qmult_le_compat_r; [exact H | discriminate].
Qed.

Lemma Q2R_zero : Q2R 0%Q = 0%R.
Proof. unfold Q2R. simpl. lra. Qed.

Lemma Q2R_one : Q2R 1%Q = 1%R.
Proof. unfold Q2R. simpl. lra. Qed.

Lemma Q2R_half x : Q2R (x / 2)%Q = (Q2R x / 2)%R.
Proof.
  unfold Qdiv. rewrite Q2R_mult. rewrite Q2R_inv by discriminate.
  unfold Q2R at 2. simpl. lra.
Qed.

Lemma exp_neg_double a : (exp (- a) = exp (- (a / 2)) * exp (- (a / 2)))%R.
Proof. rewrite <- exp_plus. f_equal. lra. Qed.

(** The two rationals enclose the discount factor. *)
Lemma exp_neg_enclosure k : forall x : Q,
  (0 <= x)%Q -> (x <= 1)%Q ->
  (0 <= Q2R (exp_neg_lower k x) /\
   Q2R (exp_neg_lower k x) <= exp (- Q2R x) /\
   exp (- Q2R x) <= Q2R (exp_neg_upper k x))%R.
Proof.
  induction k as [|k IH]; intros x H0 H1.
  - apply Qle_Rle in H0, H1. rewrite Q2R_one in H1. rewrite Q2R_zero in H0.
    simpl. rewrite Q2R_minus, Q2R_one.
    split; [lra|]. split.
    + pose proof (exp_ineq1_le (- Q2R x)). lra.
    + rewrite Q2R_inv.
      * rewrite Q2R_plus, Q2R_one. rewrite exp_Ropp.
        apply Rinv_le_contravar; [lra|]. apply exp_ineq1_le.
      * intros E. apply Qeq_eqR in E.
        rewrite Q2R_plus, Q2R_one, Q2R_zero in E. lra.
  - assert (Hh0 : (0 <= x / 2)%Q).
    { apply Qle_shift_div_l; [reflexivity|]. by rewrite Qmult_0_l. }
    assert (Hh1 : (x / 2 <= 1)%Q).
    { apply Qle_shift_div_r; [reflexivity|].
      apply (Qle_trans _ 1); [exact H1 | discriminate]. }
    destruct (IH (x / 2)%Q Hh0 Hh1) as (Hl0 & Hl & Hu).
    rewrite Q2R_half in Hl, Hu.
    simpl. rewrite (exp_neg_double (Q2R x)).
    set (l := exp_neg_lower k (x / 2)%Q) in *.
    set (u := exp_neg_upper k (x / 2)%Q) in *.
    set (e := exp (- (Q2R x / 2))) in *.
    assert (Hd := Qle_Rle _ _ (round_down_le (l * l)%Q)).
    assert (Hup := Qle_Rle _ _ (round_up_ge (u * u)%Q)).
    rewrite Q2R_mult in Hd, Hup.
    assert (Hn : (0 <= round_down (l * l)%Q)%Q).
    { apply round_down_nonneg. apply Rle_Qle. rewrite Q2R_mult, Q2R_zero. nra. }
    apply Qle_Rle in Hn. rewrite Q2R_zero in Hn.
    split; [exact Hn|]. split; nra.
Qed.

Lemma parity_within_sound tol days p c :
  parity_within tol days p c = true ->
  (Rabs (parity_error days p c) <= Q2R tol)%R.
Proof.
  unfold parity_within.
  set (x := ((1 # 100) * (inject_Z days / 365))%Q).
  rewrite !andb_true_iff, !Qle_bool_iff.
  intros ((((Hx0 & Hx1) & Hk) & Hlo) & Hhi).
  destruct (exp_neg_enclosure 12 x Hx0 Hx1) as (_ & Hl & Hu).
  assert (Ex : Q2R x = (1 / 100 * (IZR days / 365))%R).
  { unfold x. rewrite Q2R_mult. unfold Qdiv.
    rewrite Q2R_mult, Q2R_inv by discriminate.
    unfold Q2R. simpl. field. }
  rewrite Ex in Hl, Hu.
  apply Qle_Rle in Hk, Hlo, Hhi. rewrite Q2R_zero in Hk.
  rewrite Q2R_opp in Hlo.
  rewrite Q2R_plus, Q2R_mult, !Q2R_minus in Hlo, Hhi.
  assert (E100 : Q2R 100 = 100%R) by (unfold Q2R; simpl; lra).
  rewrite E100 in Hlo, Hhi.
  unfold parity_error.
  set (e := exp (- (1 / 100 * (IZR days / 365)))) in *.
  apply Rabs_le. split; nra.
Qed.

Lemma table_parity puts calls :
  forallb (fun '(days, (p, c)) => parity_within (1 # 10000) days p c)
          (paired_rows puts calls) = true ->
  Forall (fun '(days, (p, c)) =>
            (Rabs (parity_error days p c) <= 1 / 10000)%R)
         (paired_rows puts calls).
Proof.
  intros Hall. apply List.Forall_forall. intros [days [p c]] Hin.
  replace (1 / 10000)%R with (Q2R (1 # 10000))
    by (unfold Q2R; simpl; lra).
  apply parity_within_sound.
  exact (proj1 (forallb_forall _ _) Hall (days, (p, c)) Hin).
Qed.

(** X11.  In the recorded tables the reference prices of the call and of
    the put of every grid point satisfy put-call parity up to 0.0001, the
    rounding of the two printed prices: for the closed-form prices of the
    geometric Brownian motion cells and for the three pairs of Fourier
    pricing functions. *)
Lemma recorded_parity :
  Forall (fun tables =>
            length (paired_rows (fst tables) (snd tables)) = 15%nat /\
            Forall (fun '(days, (p, c)) =>
                      (Rabs (parity_error days p c) <= 1 / 10000)%R)
                   (paired_rows (fst tables) (snd tables)))
         [(recorded_gbm_put, recorded_gbm_call);
          (recorded_M76_put, recorded_M76_call);
          (recorded_H93_put, recorded_H93_call);
          (recorded_B96_put, recorded_B96_call)].
Proof.
  repeat (apply List.Forall_cons;
          [split; [vm_compute; reflexivity
                  | apply table_parity; vm_compute; reflexivity]|]).
  apply List.Forall_nil.
Qed.

(** Three recorded lines, reproduced by the row of the loops from prices
    with one more digit than printed: a row of [valuation_benchmarking], a
    row of the geometric Brownian motion put cell, and a row whose
    difference rounds to a negative zero. *)
Lemma recorded_lines_reproduced :
  render (row 3 (T_at (Date 2015 1 1) (Date 2015 3 31)) (of_Q 80)
              (of_Q 2.17708) (of_Q 2.15940))
    = "0.244 |  80.000 |  2.1771 |  2.1594 |  0.0177 |   0.819 "%string /\
  render (row 2 (T_at (Date 2015 1 1) (Date 2015 3 31)) (of_Q 100)
              (of_Q 3.78114) (of_Q 3.81298))
    = "0.244 | 100.000 |  3.7811 |  3.8130 | -0.0318 |   -0.84 "%string /\
  render (row 3 (T_at (Date 2015 1 1) (Date 2015 3 31)) (of_Q 80)
              (of_Q 0.0503945) (of_Q 0.0504))
    = "0.244 |  80.000 |  0.0504 |  0.0504 | -0.0000 |  -0.011 "%string /\
  render header
    = "   T  |  strike |     mcs |     fou |     dif |     rel"%string.
Proof. repeat split; vm_compute; reflexivity. Qed.

(* ===================================================================== *)
(** * The calendar and the grid on examples *)
(* ===================================================================== *)

Example toordinal_pricing_date : toordinal (Date 2015 1 1) = 735599%Z.
Proof. reflexivity. Qed.

Example february_lengths :
  days_in_month 2015 2 = 28%Z /\ days_in_month 2016 2 = 29%Z /\
  days_in_month 1900 2 = 28%Z /\ days_in_month 2000 2 = 29%Z.
Proof. repeat split. Qed.

(** The maturities are 89, 150 and 211 days after the pricing date. *)
Example maturity_days :
  map (days_between (Date 2015 1 1)) maturity_grid = [89; 150; 211]%Z.
Proof. reflexivity. Qed.

(** A month-end start date is its own first maturity, and the range
    crosses the end of a year. *)
Example date_range_over_new_year :
  date_range (Date 2015 11 30) 2 3
  = [Date 2015 11 30; Date 2016 1 31; Date 2016 3 31].
Proof. reflexivity. Qed.

Example linspace_samples :
  linspace (of_Q 0) (of_Q 1) 3 = [of_Q 0; of_Q (1 # 2); of_Q 1] /\
  linspace (of_Q 0) (of_Q 1) 1 = [of_Q 0] /\
  linspace (of_Q 0) (of_Q 1) 0 = [].
Proof. repeat split. Qed.

Lemma last_point_is_last : last grid = Some last_point.
Proof. reflexivity. Qed.

(* ===================================================================== *)
(** * The width of the table *)
(* ===================================================================== *)

Lemma replicate_ascii_length n c : String.length (replicate_ascii n c) = n.
Proof. induction n as [|n IH]; simpl; [reflexivity | by rewrite IH]. Qed.

Lemma pad_left_length c w s :
  String.length (pad_left c w s) = Nat.max w (String.length s).
Proof.
  unfold pad_left. rewrite string_length_app, replicate_ascii_length. lia.
Qed.

Lemma pad_left_0 c s : pad_left c 0 s = s.
Proof. reflexivity. Qed.

(** A conversion pads what it would print in a field of no width. *)
Lemma format_f_pad w p x : format_f w p x = pad_left " " w (format_f 0 p x).
Proof. destruct x; reflexivity. Qed.

Lemma format_f_length w p x :
  String.length (format_f w p x)
  = Nat.max w (String.length (format_f 0 p x)).
Proof. rewrite format_f_pad at 1. apply pad_left_length. Qed.

Lemma pretty_N_go_length x : forall s,
  (String.length s <= String.length (pretty_N_go x s))%nat /\
  ((0 < x)%N -> (String.length s < String.length (pretty_N_go x s))%nat).
Proof.
  induction (N.lt_wf_0 x) as [x _ IH]. intros s.
  destruct (decide (0 < x)%N) as [Hx|Hx].
  - rewrite pretty_N_go_step by done.
    destruct (IH (x `div` 10)%N) with
      (s := String (pretty_N_char (x `mod` 10)) s) as [Hle _].
    { by apply N.div_lt. }
    simpl in Hle. split; [lia|]. intros _. lia.
  - assert (x = 0%N) as -> by lia. rewrite pretty_N_go_0. split; [lia|lia].
Qed.

Lemma pretty_Z_length (z : Z) : (1 <= String.length (pretty z))%nat.
Proof.
  assert (HN : forall n : N, (1 <= String.length (pretty n))%nat).
  { intros n. unfold pretty, pretty_N.
    destruct (decide (n = 0%N)) as [->|Hn]; [simpl; lia|].
    destruct (pretty_N_go_length n "") as [_ H]. simpl in H.
    assert (0 < n)%N by lia. specialize (H ltac:(done)). lia. }
  unfold pretty, pretty_Z.
  destruct z as [|p|p]; [simpl; lia | apply HN |].
  change ("-" +:+ pretty (N.pos p))%string
    with (String "-" (pretty (N.pos p))).
  simpl. lia.
Qed.

Lemma fixed_digits_length p q :
  (0 < p)%nat -> (p + 2 <= String.length (fixed_digits p q))%nat.
Proof.
  intros Hp. destruct p as [|p]; [lia|]. unfold fixed_digits.
  rewrite !string_length_app, decimals_length.
  pose proof (pretty_Z_length
    (round_half_even (Qabs q * inject_Z (10 ^ Z.of_nat (S p)))
     / 10 ^ Z.of_nat (S p))) as H.
  change (String.length ".") with 1%nat. lia.
Qed.

(** X10.  The header is 55 characters wide, and a row is as wide as its
    six numbers need: each takes its field (4 characters for the year
    fraction, 7 for the others) or more if it does not fit, never fewer
    and never cut, plus the 16 characters between and after the fields.
    No row is narrower than the header.  A year fraction never fits its
    field: with three decimals it needs at least five characters, which
    the second blank after [T] in the header makes up for. *)
Theorem row_width p T strike mcs fou :
  let field w d x := Nat.max w (String.length (format_f 0 d x)) in
  String.length (render header) = 55%nat /\
  String.length (render (row p T strike mcs fou)) =
    (16 + field 4 3 T + field 7 3 strike + field 7 4 mcs + field 7 4 fou
     + field 7 4 (fsub mcs fou)
     + field 7 p (fmul (fdiv (fsub mcs fou) fou) (of_Z 100)))%nat /\
  (55 <= String.length (render (row p T strike mcs fou)))%nat /\
  forall anchor m, (5 <= String.length (format_f 4 3 (T_at anchor m)))%nat.
Proof.
  intros field.
  assert (Hrow : String.length (render (row p T strike mcs fou)) =
    (16 + field 4 3 T + field 7 3 strike + field 7 4 mcs + field 7 4 fou
     + field 7 4 (fsub mcs fou)
     + field 7 p (fmul (fdiv (fsub mcs fou) fou) (of_Z 100)))%nat).
  { unfold row. cbn [render convert]. rewrite !string_length_app.
    rewrite (format_f_length 4), !(format_f_length 7). subst field.
    cbn [String.length]. lia. }
  split; [vm_compute; reflexivity|]. split; [exact Hrow|]. split.
  - rewrite Hrow. subst field. cbv beta. lia.
  - intros anchor m. unfold T_at, fdiv, of_Z, of_Q.
    rewrite format_f_length.
    destruct (Qeq_bool _ 0) eqn:E; [discriminate E|].
    unfold format_f. rewrite pad_left_0, string_length_app.
    match goal with
    | |- context [fixed_digits 3 ?q] =>
        pose proof (fixed_digits_length 3 q ltac:(lia))
    end.
    lia.
Qed.

(* ===================================================================== *)
(** * The recorded tables against the rows of the loops *)
(* ===================================================================== *)

(** X12.  The eight tables the notebook recorded are tables of the
    loops: each has the fifteen rows of the grid in its order, with the
    year fraction counted from the pricing date and the strike in the
    first two columns; in every row the printed difference is the
    difference of the two printed prices, and the printed relative
    difference is that difference relative to the reference price [fou],
    in percent: with two decimals in the two geometric Brownian motion
    tables and with three in the other six, all up to the rounding of the
    printed numbers. *)
Theorem recorded_tables_consistent :
  Forall (fun '(p, t) =>
            follows_grid t = true /\
            all_rows dif_consistent t = true /\
            all_rows (rel_consistent p) t = true)
         [(2%nat, recorded_gbm_put); (2%nat, recorded_gbm_call);
          (3%nat, recorded_M76_put); (3%nat, recorded_M76_call);
          (3%nat, recorded_H93_put); (3%nat, recorded_H93_call);
          (3%nat, recorded_B96_put); (3%nat, recorded_B96_call)].
Proof.
  repeat (apply List.Forall_cons;
          [split; [|split]; vm_compute; reflexivity|]).
  apply List.Forall_nil.
Qed.

(* ===================================================================== *)
(** * More runs with the sample suppliers *)
(* ===================================================================== *)

Lemma sample_put_cell_returns :
  gbm_put_benchmark counting_engine engine_kept bsm_strike_price
                    (initial_world 0%nat)
  = (Returned tt,
     (gbm_put_benchmark counting_engine engine_kept bsm_strike_price
                        (initial_world 0%nat)).2).
Proof.
  assert (H : (gbm_put_benchmark counting_engine engine_kept bsm_strike_price
                 (initial_world 0%nat)).1 = Returned tt)
    by (vm_compute; reflexivity).
  destruct (gbm_put_benchmark counting_engine engine_kept bsm_strike_price
              (initial_world 0%nat)) as [o w'].
  simpl in *. by subst.
Defined.


Lemma sample_cells_return (cs : list cell_code) (w : world nat) :
  (for_each dx_error nat cs
     (run_cell counting_engine engine_kept bsm_strike_price bsm_strike_price
               (fun _ => strike_price)) w).1 = Returned tt ->
  for_each dx_error nat cs
    (run_cell counting_engine engine_kept bsm_strike_price bsm_strike_price
              (fun _ => strike_price)) w
  = (Returned tt,
     (for_each dx_error nat cs
        (run_cell counting_engine engine_kept bsm_strike_price
                  bsm_strike_price (fun _ => strike_price)) w).2).
Proof.
  destruct (for_each dx_error nat cs _ w) as [o w']. simpl. by intros ->.
Defined.

Lemma valuation_object_left_at_last_point_witness :
  let run := valuation_benchmarking counting_engine engine_kept euro_put_jd
                                    strike_price in
  let w := initial_world 0%nat in
  run w = (Returned tt, (run w).2) /\
  vo_strike (objects (run w).2 euro_put_jd) = Some (CFloat (of_Q 120)) /\
  vo_maturity (objects (run w).2 euro_put_jd)
    = Some (CDate (Date 2015 7 31)).
Proof.
  intros run w. split; [apply sample_run_returns|].
  pose proof (valuation_object_left_at_last_point dx_error nat
                counting_engine engine_kept euro_put_jd strike_price
                w (run w).2 tt sample_run_returns) as H.
  split; apply H.
Defined.

Lemma gbm_objects_left_at_last_point_witness :
  let run := gbm_put_benchmark counting_engine engine_kept bsm_strike_price in
  let w := initial_world 0%nat in
  run w = (Returned tt, (run w).2) /\
  objects (run w).2 euro_put_gbm
    = object_at (objects w euro_put_gbm) (Date 2015 7 31, of_Q 120) /\
  bsm_option (run w).2 = bsm_at (bsm_option w) (Date 2015 7 31, of_Q 120).
Proof.
  intros run w. split; [apply sample_put_cell_returns|].
  apply (proj1 (gbm_objects_left_at_last_point dx_error nat counting_engine
                  engine_kept bsm_strike_price bsm_strike_price
                  w (run w).2 tt)).
  apply sample_put_cell_returns.
Defined.


Lemma me_option_settles_witness :
  let run := valuation_benchmarking counting_engine engine_kept euro_put_jd
                                    strike_price in
  let w := initial_world 0%nat in
  let later :=
    for_each dx_error nat
      [PresentValue euro_call_jd; GbmCallBenchmark;
       ValuationBenchmarking euro_call_jd M76_call_value]
      (run_cell counting_engine engine_kept bsm_strike_price bsm_strike_price
                (fun _ => strike_price)) in
  run w = (Returned tt, (run w).2) /\
  later (run w).2 = (Returned tt, (later (run w).2).2) /\
  me_option (later (run w).2).2 = me_option (run w).2.
Proof.
  intros run w later.
  assert (H : later (run w).2 = (Returned tt, (later (run w).2).2))
    by (apply sample_cells_return; vm_compute; reflexivity).
  split; [apply sample_run_returns|]. split; [exact H|].
  apply (me_option_settles dx_error nat counting_engine engine_kept
           bsm_strike_price bsm_strike_price (fun _ => strike_price)
           euro_put_jd strike_price w (run w).2 tt sample_run_returns
           _ _ tt H).
Defined.

Lemma one_simulation_per_row_witness :
  let simulate := counted counting_engine in
  let update := uncounted engine_kept in
  let run := valuation_benchmarking simulate update euro_put_jd
                                    strike_price in
  let b := fourier_benchmark euro_put_jd strike_price in
  let w := initial_world (0%nat, 0%nat) in
  (forall e o, (simulate e o).2.2 = S e.2) /\
  (forall e o, (update e o).2 = e.2) /\
  benchmark_run simulate update bsm_strike_price bsm_strike_price run b /\
  exists rows,
    stdout (run w).2 = stdout w ++ header :: rows /\
    match (run w).1 with
    | Returned _ =>
        length rows = 15%nat /\
        (engine (run w).2).2 = ((engine w).2 + 15)%nat
    | Raised _ =>
        (length rows < 15)%nat /\
        (engine (run w).2).2 = ((engine w).2 + length rows + 1)%nat
    end.
Proof.
  intros simulate update run b w.
  assert (H1 : forall e o, (simulate e o).2.2 = S e.2).
  { intros e o. unfold simulate, counted.
    destruct (counting_engine e.1 o). reflexivity. }
  assert (H2 : forall e o, (update e o).2 = e.2) by reflexivity.
  split; [exact H1|]. split; [exact H2|]. split; [apply fourier_run|].
  apply (one_simulation_per_row dx_error (nat * nat)%type simulate update
           bsm_strike_price bsm_strike_price snd run b w H1 H2).
  apply fourier_run.
Defined.

Lemma notebook_prints_eight_tables_witness :
  let notebook :=
    for_each dx_error nat notebook_cells
      (run_cell counting_engine engine_kept bsm_strike_price bsm_strike_price
                (fun _ => strike_price)) in
  let w := initial_world 0%nat in
  notebook w = (Returned tt, (notebook w).2) /\
  length (stdout (notebook w).2) = 128%nat.
Proof.
  intros notebook w.
  assert (H : notebook w = (Returned tt, (notebook w).2))
    by (apply sample_cells_return; vm_compute; reflexivity).
  split; [exact H|].
  apply (notebook_prints_eight_tables dx_error nat counting_engine
           engine_kept bsm_strike_price bsm_strike_price
           (fun _ => strike_price) 0%nat (notebook w).2 tt H).
Defined.

Lemma present_value_cells_price_constructed_witness :
  let before :=
    for_each dx_error nat (take 6 notebook_cells)
      (run_cell counting_engine engine_kept bsm_strike_price bsm_strike_price
                (fun _ => strike_price)) in
  let w := initial_world 0%nat in
  notebook_cells !! 6%nat = Some (PresentValue euro_call_jd) /\
  before w = (Returned tt, (before w).2) /\
  objects (before w).2 euro_call_jd = construct euro_call_jd /\
  vo_strike (objects (before w).2 euro_call_jd) = Some (CFloat (of_Q 100)) /\
  get_constant "strike" (me_option (before w).2) = Some (CFloat (of_Q 120)).
Proof.
  intros before w.
  assert (H : before w = (Returned tt, (before w).2))
    by (apply sample_cells_return; vm_compute; reflexivity).
  split; [reflexivity|]. split; [exact H|].
  destruct (present_value_cells_price_constructed dx_error nat
              counting_engine engine_kept bsm_strike_price bsm_strike_price
              (fun _ => strike_price) 6 euro_call_jd 0%nat (before w).2 tt
              eq_refl H) as (Ho & _ & Hk & _ & Hs).
  split; [exact Ho|]. split; [by rewrite Ho|]. apply Hs. lia.
Defined.

Lemma seeded_engine_estimate e o :
  (seeded_engine e o).1 = (seeded_engine 0 o).1.
Proof. unfold seeded_engine. by destruct (vo_strike o) as [[]|]. Qed.

Lemma seeded_run_returns :
  valuation_benchmarking seeded_engine engine_kept euro_put_jd strike_price
                         (initial_world 0%nat)
  = (Returned tt,
     (valuation_benchmarking seeded_engine engine_kept euro_put_jd
                             strike_price (initial_world 0%nat)).2).
Proof.
  assert (H : (valuation_benchmarking seeded_engine engine_kept euro_put_jd
                 strike_price (initial_world 0%nat)).1 = Returned tt)
    by (vm_compute; reflexivity).
  destruct (valuation_benchmarking seeded_engine engine_kept euro_put_jd
              strike_price (initial_world 0%nat)) as [o w'].
  simpl in *. by subst.
Defined.

Lemma table_of_seeded_engine_witness :
  let v := fun o => (seeded_engine 0 o).1 in
  let run := valuation_benchmarking seeded_engine engine_kept euro_put_jd
                                    strike_price in
  let b := fourier_benchmark euro_put_jd strike_price in
  let w := initial_world 0%nat in
  (forall e o, (seeded_engine e o).1 = v o) /\
  benchmark_run seeded_engine engine_kept bsm_strike_price bsm_strike_price
                run b /\
  (run w).1 = (expected_rows v (b w) grid).2 /\
  stdout (run w).2 = stdout w ++ header :: (expected_rows v (b w) grid).1.
Proof.
  intros v run b w.
  split; [exact seeded_engine_estimate|]. split; [apply fourier_run|].
  apply (table_of_seeded_engine dx_error nat seeded_engine engine_kept
           bsm_strike_price bsm_strike_price v run b w
           seeded_engine_estimate).
  apply fourier_run.
Defined.

Lemma seeded_benchmark_repeats_witness :
  let v := fun o => (seeded_engine 0 o).1 in
  let run := valuation_benchmarking seeded_engine engine_kept euro_put_jd
                                    strike_price in
  let between :=
    for_each dx_error nat
      [PresentValue euro_call_jd;
       ValuationBenchmarking euro_call_jd M76_call_value; GbmPutBenchmark]
      (run_cell seeded_engine engine_kept bsm_strike_price bsm_strike_price
                (fun _ => strike_price)) in
  let w := initial_world 0%nat in
  (forall e o, (seeded_engine e o).1 = v o) /\
  run w = (Returned tt, (run w).2) /\
  between (run w).2 = (Returned tt, (between (run w).2).2) /\
  exists rows,
    length rows = 15%nat /\
    stdout (run w).2 = stdout w ++ header :: rows /\
    (run (between (run w).2).2).1 = Returned tt /\
    stdout (run (between (run w).2).2).2
      = stdout (between (run w).2).2 ++ header :: rows.
Proof.
  intros v run between w.
  assert (H : between (run w).2 = (Returned tt, (between (run w).2).2)).
  { assert (H1 : (between (run w).2).1 = Returned tt)
      by (vm_compute; reflexivity).
    destruct (between (run w).2) as [o w']. simpl in *. by subst. }
  split; [exact seeded_engine_estimate|].
  split; [apply seeded_run_returns|]. split; [exact H|].
  apply (seeded_benchmark_repeats dx_error nat seeded_engine engine_kept
           bsm_strike_price bsm_strike_price (fun _ => strike_price) v
           euro_put_jd strike_price w (run w).2 tt seeded_engine_estimate
           seeded_run_returns _ _ tt H).
Defined.
